(** * ChromaDBStore: a vector store over a Chroma-style collection backend

    Shallow embedding of
    [ragbits/document_search/vector_store/chromadb_store.py] and the
    properties of its three entry points [store], [retrieve] and
    [find_similar].

    Conventions of the embedding:
    - a Python [str] is the [string] of its UTF-8 bytes, so that
      [s.encode("utf-8")] is the list of the bytes of [s];
    - a Python [float] is a binary64 primitive float, compared with the
      IEEE comparison [PrimFloat.leb] as Python's [<=] does;
    - a Python [dict] is a [gmap] from its keys;
    - an exception is the [Raised] outcome of the state and error monad
      [M], whose state holds the store object itself, the state of the
      backend behind [chroma_client] and the list of the calls made to
      the collaborators. *)

From Stdlib Require Import ZArith Floats Uint63 Ascii String.
From stdpp Require Import base option list strings gmap fin_maps.

Local Open Scope Z_scope.

(** ** hashlib.sha256

    SHA-256 (FIPS 180-4) on a list of bytes, each byte an integer in
    [0, 256); words are 32-bit integers with their wrap-around written
    out. *)
Module Hashlib.

Definition wrap32 (x : Z) : Z := x mod 2 ^ 32.

Definition add32 (x y : Z) : Z := wrap32 (x + y).

Definition rotr (n x : Z) : Z :=
  Z.lor (Z.shiftr x n) (wrap32 (Z.shiftl x (32 - n))).

Definition not32 (x : Z) : Z := Z.lxor x (2 ^ 32 - 1).

Definition Ch (x y z : Z) : Z :=
  Z.lxor (Z.land x y) (Z.land (not32 x) z).

Definition Maj (x y z : Z) : Z :=
  Z.lxor (Z.lxor (Z.land x y) (Z.land x z)) (Z.land y z).

Definition Sigma0 (x : Z) : Z :=
  Z.lxor (Z.lxor (rotr 2 x) (rotr 13 x)) (rotr 22 x).

Definition Sigma1 (x : Z) : Z :=
  Z.lxor (Z.lxor (rotr 6 x) (rotr 11 x)) (rotr 25 x).

Definition sigma0 (x : Z) : Z :=
  Z.lxor (Z.lxor (rotr 7 x) (rotr 18 x)) (Z.shiftr x 3).

Definition sigma1 (x : Z) : Z :=
  Z.lxor (Z.lxor (rotr 17 x) (rotr 19 x)) (Z.shiftr x 10).

(** The primes up to 311, the first 64 of them. *)
Definition is_prime (n : Z) : bool :=
  forallb (fun d => negb (n mod d =? 0)) (seqZ 2 (n - 2)).

Definition primes : list Z := List.filter is_prime (seqZ 2 310).

(** The largest [r] below [2 ^ bits] such that [r ^ n <= x], added to
    [r0]: the integer root of [x], found bit by bit. *)
Fixpoint iroot (n : Z) (bits : nat) (x r0 : Z) : Z :=
  match bits with
  | O => r0
  | S b =>
      let r1 := r0 + 2 ^ Z.of_nat b in
      iroot n b x (if r1 ^ n <=? x then r1 else r0)
  end.

(** The first 32 bits of the fractional part of the [n]-th root of [p]. *)
Definition root_bits (n p : Z) : Z :=
  wrap32 (iroot n 40 (p * 2 ^ (32 * n)) 0).

(** Round constants, from the cube roots of the 64 primes, and initial
    hash value, from the square roots of the first 8. *)
Definition K256 : list Z := root_bits 3 <$> primes.

Definition H256 : list Z := root_bits 2 <$> take 8 primes.

(** Big-endian bytes of an integer, most significant first. *)
Fixpoint be_bytes (n : nat) (x : Z) : list Z :=
  match n with
  | O => []
  | S n' => (Z.shiftr x (8 * Z.of_nat n')) mod 256 :: be_bytes n' x
  end.

Definition be_word (bs : list Z) : Z :=
  foldl (fun acc b => acc * 256 + b) 0 bs.

(** Padding: the bit 1, zero bits up to 56 modulo 64 bytes, and the
    length of the message in bits on 8 bytes. *)
Definition pad (msg : list Z) : list Z :=
  let len := Z.of_nat (length msg) in
  let zeros := Z.to_nat ((55 - len) mod 64) in
  msg ++ [0x80] ++ replicate zeros 0 ++ be_bytes 8 (8 * len).

Fixpoint chunks {A} (fuel n : nat) (l : list A) : list (list A) :=
  match fuel with
  | O => []
  | S fuel' =>
      match l with
      | [] => []
      | _ => take n l :: chunks fuel' n (drop n l)
      end
  end.

Definition words_of_block (block : list Z) : list Z :=
  be_word <$> chunks 16 4 block.

(** Message schedule: 48 further words after the 16 of the block. *)
Fixpoint schedule (n : nat) (w : list Z) : list Z :=
  match n with
  | O => w
  | S n' =>
      let t := length w in
      let at_ (i : nat) := nth (t - i) w 0 in
      let next :=
        add32 (add32 (add32 (sigma1 (at_ 2%nat)) (at_ 7%nat))
                     (sigma0 (at_ 15%nat))) (at_ 16%nat) in
      schedule n' (w ++ [next])
  end.

Record regs := Regs { ra : Z; rb : Z; rc : Z; rd : Z;
                      re : Z; rf : Z; rg : Z; rh : Z }.

Definition round (r : regs) (kw : Z * Z) : regs :=
  let t1 := add32 (add32 (add32 (add32 (rh r) (Sigma1 (re r)))
                                (Ch (re r) (rf r) (rg r))) kw.1) kw.2 in
  let t2 := add32 (Sigma0 (ra r)) (Maj (ra r) (rb r) (rc r)) in
  Regs (add32 t1 t2) (ra r) (rb r) (rc r) (add32 (rd r) t1) (re r) (rf r) (rg r).

Definition regs_of (h : list Z) : regs :=
  Regs (nth 0 h 0) (nth 1 h 0) (nth 2 h 0) (nth 3 h 0)
       (nth 4 h 0) (nth 5 h 0) (nth 6 h 0) (nth 7 h 0).

Definition list_of (r : regs) : list Z :=
  [ra r; rb r; rc r; rd r; re r; rf r; rg r; rh r].

Definition compress (h : list Z) (block : list Z) : list Z :=
  let w := schedule 48 (words_of_block block) in
  let r := foldl round (regs_of h) (zip K256 w) in
  zip_with add32 h (list_of r).

(** The digest, as 32 bytes. *)
Definition sha256 (msg : list Z) : list Z :=
  let padded := pad msg in
  let blocks := chunks (length padded) 64 padded in
  foldl compress H256 blocks ≫= be_bytes 4.

Definition hex_digit (d : Z) : ascii :=
  if d <? 10 then ascii_of_N (Z.to_N (48 + d))
  else ascii_of_N (Z.to_N (87 + d)).

(** Lower-case hexadecimal, two digits a byte. *)
Fixpoint hexdigest (digest : list Z) : string :=
  match digest with
  | [] => EmptyString
  | b :: rest =>
      String (hex_digit (b / 16)) (String (hex_digit (b mod 16)) (hexdigest rest))
  end.

End Hashlib.

(** [s.encode("utf-8")]: the bytes of the text. *)
Fixpoint encode_utf8 (s : string) : list Z :=
  match s with
  | EmptyString => []
  | String a s' => Z.of_N (N_of_ascii a) :: encode_utf8 s'
  end.

(** The characters of a lower-case hexadecimal number. *)
Definition is_hex_digit (a : ascii) : bool :=
  let n := N_of_ascii a in
  (((48 <=? n) && (n <=? 57)) || ((97 <=? n) && (n <=? 102)))%N.

Fixpoint all_chars (p : ascii -> bool) (s : string) : bool :=
  match s with
  | EmptyString => true
  | String a s' => p a && all_chars p s'
  end.

(** ** Exceptions and outcomes *)

Inductive exn : Type :=
| ImportError
| NameError
| IndexError
| ValidationError
| BackendError (msg : string).

Inductive outcome (A : Type) : Type :=
| Ok (a : A)
| Raised (e : exn).
Arguments Ok {A} a.
Arguments Raised {A} e.

(** ** Data model *)

(** A value held in the metadata of a backend row: [store] writes a text
    under ["key"] and the caller's mapping under ["metadata"]. *)
Inductive value : Type :=
| VStr (s : string)
| VDict (d : gmap string string).

(** Modelled from the spec: the declaration of [VectorDBEntry] (in
    [in_memory.py]) is not part of this file.  [key] is the caller's
    identifier, [vector] the payload, which [_store] encodes and hands to
    the backend as the document, [metadata] the caller's mapping. *)
Record VectorDBEntry : Type := mkVectorDBEntry {
  key : string;
  vector : string;
  metadata : gmap string string;
}.

(** [Literal["l2", "ip", "cosine"]] *)
Inductive distance_method : Type := l2 | ip | cosine.

Definition distance_method_str (d : distance_method) : string :=
  match d with
  | l2 => "l2"
  | ip => "ip"
  | cosine => "cosine"
  end.

(** The two kinds of [embedding_function]: the [Embeddings] of ragbits,
    called by the store itself and free to fail, and a
    [chromadb.EmbeddingFunction], handed to the backend. *)
Record Embeddings : Type := mkEmbeddings {
  embed_text : list string -> outcome (list (list float));
}.

Record ChromaEmbeddingFunction : Type := mkChromaEmbeddingFunction {
  ef_call : list string -> list (list float);
}.

Inductive embedder : Type :=
| AnEmbeddings (e : Embeddings)
| AChromaFunction (f : ChromaEmbeddingFunction).

(** The answer of [collection.query], column first: one inner list for
    each query, one element of it for each neighbour, nearest first. *)
Record QueryResult : Type := mkQueryResult {
  ids : list (list string);
  documents : list (list string);
  metadatas : list (list (gmap string value));
  distances : list (list float);
}.

(** One element of the [formatted_data] that [store] hands to [_store]:
    the dict with the keys ["text"] and ["metadata"]. *)
Record item : Type := mkItem {
  text : string;
  item_metadata : gmap string value;
}.

Section Store.

(** The backend is a collaborator: [W] is the state it keeps,
    [Collection] the handle that [get_or_create_collection] returns. *)
Context {W Collection : Type}.

(** [chromadb.ClientAPI], with the two methods of the collection handle
    that the store calls. *)
Record ClientAPI : Type := mkClientAPI {
  get_or_create_collection :
    string -> gmap string string -> option ChromaEmbeddingFunction ->
    W -> outcome Collection * W;
  collection_add :
    Collection -> list string -> option (list (list float)) ->
    list string -> list (gmap string value) -> W -> outcome unit * W;
  collection_query :
    Collection -> option (list (list float)) -> option (list string) -> Z ->
    W -> outcome QueryResult * W;
}.

Record ChromaDBStore : Type := mkChromaDBStore {
  index_name : string;
  chroma_client : ClientAPI;
  embedding_function : embedder;
  max_distance : option float;
  _metadata : gmap string string;
}.

(** The calls made to the collaborators, in the order they are made. *)
Inductive call : Type :=
| GetOrCreateCollection (name : string) (metadata : gmap string string)
    (ef : option ChromaEmbeddingFunction)
| EmbedText (texts : list string)
| CollectionAdd (c : Collection) (ids : list string)
    (embeddings : option (list (list float))) (documents : list string)
    (metadatas : list (gmap string value))
| CollectionQuery (c : Collection) (query_embeddings : option (list (list float)))
    (query_texts : option (list string)) (n_results : Z).

Record state : Type := mkState {
  self : ChromaDBStore;
  backend : W;
  calls : list call;
}.

(** ** The state and error monad *)

Definition M (A : Type) : Type := state -> outcome A * state.

Definition ret {A} (a : A) : M A := fun s => (Ok a, s).

Definition raise {A} (e : exn) : M A := fun s => (Raised e, s).

Definition bind {A B} (m : M A) (k : A -> M B) : M B :=
  fun s =>
    match m s with
    | (Ok a, s') => k a s'
    | (Raised e, s') => (Raised e, s')
    end.

#[global] Instance M_ret : MRet M := @ret.
#[global] Instance M_bind : MBind M := fun A B k m => bind m k.

(** [self.f] *)
Definition attr {A} (f : ChromaDBStore -> A) : M A :=
  fun s => (Ok (f (self s)), s).

(** [self.f = v], through the update [upd] of the field. *)
Definition set_attr (upd : ChromaDBStore -> ChromaDBStore) : M unit :=
  fun s => (Ok tt, mkState (upd (self s)) (backend s) (calls s)).

(** A call to the backend: it is recorded and runs on the backend state. *)
Definition invoke {A} (c : call) (f : W -> outcome A * W) : M A :=
  fun s =>
    let '(r, w) := f (backend s) in
    (r, mkState (self s) w (calls s ++ [c])).

(** [await e.embed_text(texts)] *)
Definition invoke_embed_text (e : Embeddings) (texts : list string) :
    M (list (list float)) :=
  fun s =>
    (embed_text e texts, mkState (self s) (backend s) (calls s ++ [EmbedText texts])).

(** [l[0]] *)
Definition index0 {A} (l : list A) : M A :=
  match l with
  | x :: _ => ret x
  | [] => raise IndexError
  end.

(** [for x in l: acc.append(f(x))] *)
Fixpoint for_each {A B} (f : A -> M B) (l : list A) : M (list B) :=
  match l with
  | [] => ret []
  | x :: rest => y ← f x; ys ← for_each f rest; ret (y :: ys)
  end.

(** Modelled from the spec: the constructor of [VectorDBEntry] (declared
    in [in_memory.py]); a [key] that is not a text or a [metadata] that is
    not a mapping is refused. *)
Definition new_VectorDBEntry (k : option value) (v : string) (m : option value) :
    M VectorDBEntry :=
  match k, m with
  | Some (VStr k'), Some (VDict m') => ret (mkVectorDBEntry k' v m')
  | _, _ => raise ValidationError
  end.

(** ** The methods of [ChromaDBStore] *)

Definition set_index_name (v : string) (o : ChromaDBStore) : ChromaDBStore :=
  mkChromaDBStore v (chroma_client o) (embedding_function o) (max_distance o) (_metadata o).
Definition set_chroma_client (v : ClientAPI) (o : ChromaDBStore) : ChromaDBStore :=
  mkChromaDBStore (index_name o) v (embedding_function o) (max_distance o) (_metadata o).
Definition set_embedding_function (v : embedder) (o : ChromaDBStore) : ChromaDBStore :=
  mkChromaDBStore (index_name o) (chroma_client o) v (max_distance o) (_metadata o).
Definition set_max_distance (v : option float) (o : ChromaDBStore) : ChromaDBStore :=
  mkChromaDBStore (index_name o) (chroma_client o) (embedding_function o) v (_metadata o).
Definition set__metadata (v : gmap string string) (o : ChromaDBStore) : ChromaDBStore :=
  mkChromaDBStore (index_name o) (chroma_client o) (embedding_function o) (max_distance o) v.

(** [__init__]; [HAS_CHROMADB] is the flag set when the module is loaded
    and [super_init] the initialiser of the base class, which is not part
    of this file.  A caller who gives no [max_distance] gives [None], one
    who gives no [distance_method] gives [l2]. *)
Definition __init__ (HAS_CHROMADB : bool) (super_init : M unit)
    (index_name' : string) (chroma_client' : ClientAPI)
    (embedding_function' : embedder) (max_distance' : option float)
    (distance_method' : distance_method) : M unit :=
  if negb HAS_CHROMADB then raise ImportError
  else
    super_init;;
    set_attr (set_index_name index_name');;
    set_attr (set_chroma_client chroma_client');;
    set_attr (set_embedding_function embedding_function');;
    set_attr (set_max_distance max_distance');;
    set_attr (set__metadata {[ "hnsw:space" := distance_method_str distance_method' ]}).

Definition _get_chroma_collection : M Collection :=
  ef ← attr embedding_function;
  client ← attr chroma_client;
  name ← attr index_name;
  md ← attr _metadata;
  match ef with
  | AnEmbeddings _ =>
      invoke (GetOrCreateCollection name md None)
             (get_or_create_collection client name md None)
  | AChromaFunction f =>
      invoke (GetOrCreateCollection name md (Some f))
             (get_or_create_collection client name md (Some f))
  end.

Definition _return_best_match (retrieved : QueryResult) : M (option string) :=
  max_d ← attr max_distance;
  accept ← match max_d with
           | None => ret true
           | Some m =>
               row ← index0 (distances retrieved);
               d ← index0 row;
               ret (PrimFloat.leb d m)
           end;
  if accept : bool then
    row ← index0 (documents retrieved);
    doc ← index0 row;
    ret (Some doc)
  else ret None.

Definition storage_id (payload : string) : string :=
  Hashlib.hexdigest (Hashlib.sha256 (encode_utf8 payload)).

Definition _store (data : list item) : M unit :=
  let ids := (fun it => storage_id (text it)) <$> data in
  let texts := text <$> data in
  let metadata := item_metadata <$> data in
  collection ← _get_chroma_collection;
  ef ← attr embedding_function;
  client ← attr chroma_client;
  match ef with
  | AnEmbeddings e =>
      embeddings ← invoke_embed_text e texts;
      invoke (CollectionAdd collection ids (Some embeddings) texts metadata)
             (collection_add client collection ids (Some embeddings) texts metadata)
  | AChromaFunction _ =>
      invoke (CollectionAdd collection ids None texts metadata)
             (collection_add client collection ids None texts metadata)
  end.

Definition format_entry (entry : VectorDBEntry) : item :=
  mkItem (vector entry)
         {[ "key" := VStr (key entry); "metadata" := VDict (metadata entry) ]}.

Definition store (entries : list VectorDBEntry) : M unit :=
  let formatted_data := format_entry <$> entries in
  _store formatted_data.

(** [retrieve]; a caller who gives no [k] gives 5. *)
Definition retrieve (vector : list float) (k : Z) : M (list VectorDBEntry) :=
  collection ← _get_chroma_collection;
  client ← attr chroma_client;
  query_result ←
    invoke (CollectionQuery collection (Some [vector]) None k)
           (collection_query client collection (Some [vector]) None k);
  for_each
    (fun '(doc, meta) =>
       meta0 ← index0 meta;
       doc0 ← index0 doc;
       new_VectorDBEntry (meta0 !! "key") doc0 (meta0 !! "metadata"))
    (zip (documents query_result) (metadatas query_result)).

Definition find_similar (text : string) : M (option string) :=
  collection ← _get_chroma_collection;
  ef ← attr embedding_function;
  client ← attr chroma_client;
  retrieved ←
    match ef with
    | AnEmbeddings e =>
        embedding ← invoke_embed_text e [text];
        invoke (CollectionQuery collection (Some embedding) None 1)
               (collection_query client collection (Some embedding) None 1)
    | AChromaFunction _ =>
        invoke (CollectionQuery collection None (Some [text]) 1)
               (collection_query client collection None (Some [text]) 1)
    end;
  _return_best_match retrieved.

(** [__repr__], for an object of the class itself, whose
    [__class__.__name__] is ["ChromaDBStore"]. *)
Definition __repr__ : M string :=
  name ← attr index_name;
  ret ("ChromaDBStore(index_name=" ++ name ++ ")")%string.

(** ** Loading the module and constructing a store *)

(** [import chromadb]: it raises [ImportError] when chromadb is not
    installed. *)
Definition import_chromadb (installed : bool) : outcome unit :=
  if installed then Ok tt else Raised ImportError.

(** The annotations [chromadb.ClientAPI], [chromadb.EmbeddingFunction]
    and [chromadb.Collection] of the methods: they are evaluated when
    the class statement defines the methods, and the name [chromadb] is
    bound only if the import has succeeded. *)
Definition chromadb_annotation (bound : bool) : outcome unit :=
  if bound then Ok tt else Raised NameError.

(** The module, from its first line to the class statement: the
    [try] sets [HAS_CHROMADB] and catches [ImportError]; the class
    statement evaluates the annotations.  The result is the flag of the
    module that has been loaded. *)
Definition load_module (installed : bool) : outcome bool :=
  let flag :=
    match import_chromadb installed with
    | Ok _ => Ok true
    | Raised ImportError => Ok false
    | Raised x => Raised x
    end in
  match flag with
  | Ok HAS_CHROMADB =>
      match chromadb_annotation HAS_CHROMADB with
      | Ok _ => Ok HAS_CHROMADB
      | Raised x => Raised x
      end
  | Raised x => Raised x
  end.

(** [ChromaDBStore(index_name, chroma_client, embedding_function,
    max_distance, distance_method)] in a program that imports the
    module: the module is loaded, then [__init__] runs with its flag. *)
Definition construct (installed : bool) (super_init : M unit)
    (index_name' : string) (chroma_client' : ClientAPI)
    (embedding_function' : embedder) (max_distance' : option float)
    (distance_method' : distance_method) : M unit :=
  match load_module installed with
  | Ok HAS_CHROMADB =>
      __init__ HAS_CHROMADB super_init index_name' chroma_client'
        embedding_function' max_distance' distance_method'
  | Raised x => raise x
  end.

(** ** Vocabulary of the properties *)


(** The embeddings that [_store] passes to [add] for a batch: those of
    the provider, or none with an embedding function of the backend. *)
Definition embeddings_for (o : ChromaDBStore) (entries : list VectorDBEntry) :
    outcome (option (list (list float))) :=
  match embedding_function o with
  | AnEmbeddings e =>
      match embed_text e (vector <$> entries) with
      | Ok embeddings => Ok (Some embeddings)
      | Raised x => Raised x
      end
  | AChromaFunction _ => Ok None
  end.

(** The calls that [m] makes when run from [s]. *)
Definition new_calls {A} (m : M A) (s : state) : list call :=
  drop (length (calls s)) (calls (m s).2).

(** The embedding function that is handed to the backend, if any. *)
Definition native_function (e : embedder) : option ChromaEmbeddingFunction :=
  match e with
  | AnEmbeddings _ => None
  | AChromaFunction f => Some f
  end.

(** [m] leaves the store object as it is. *)
Definition preserves_self {A} (m : M A) : Prop :=
  forall s, self (m s).2 = self s.

(** [m] only adds to the record of the calls. *)
Definition appends {A} (m : M A) : Prop :=
  forall s, exists l, calls (m s).2 = calls s ++ l.

(** The call of [_get_chroma_collection]: [get_or_create_collection]
    with the name and the metadata of the store, and with the embedding
    function when it is the backend's. *)
Definition ensure_call (o : ChromaDBStore) : call :=
  GetOrCreateCollection (index_name o) (_metadata o)
    (native_function (embedding_function o)).

(** The columns that [store] writes for a batch. *)
Definition ids_of (entries : list VectorDBEntry) : list string :=
  (fun e => storage_id (vector e)) <$> entries.

Definition documents_of (entries : list VectorDBEntry) : list string :=
  vector <$> entries.

Definition metadatas_of (entries : list VectorDBEntry) : list (gmap string value) :=
  (fun e => item_metadata (format_entry e)) <$> entries.

(** The entry that [retrieve] builds from the rows of one query: it
    reads the first row only. *)
Definition entry_of_rows (docs : list string) (metas : list (gmap string value)) :
    outcome VectorDBEntry :=
  match metas, docs with
  | meta0 :: _, doc0 :: _ =>
      match meta0 !! "key", meta0 !! "metadata" with
      | Some (VStr k), Some (VDict m) => Ok (mkVectorDBEntry k doc0 m)
      | _, _ => Raised ValidationError
      end
  | _, _ => Raised IndexError
  end.

(** The entries that the loop of [retrieve] builds from the rows of the
    queries, one for each query; the first failure ends the loop. *)
Fixpoint entries_of_rows (rows : list (list string * list (gmap string value))) :
    outcome (list VectorDBEntry) :=
  match rows with
  | [] => Ok []
  | (docs, metas) :: rest =>
      match entry_of_rows docs metas with
      | Raised x => Raised x
      | Ok e =>
          match entries_of_rows rest with
          | Ok es => Ok (e :: es)
          | Raised x => Raised x
          end
      end
  end.

(** The kinds of calls. *)
Definition is_add (c : call) : bool :=
  match c with CollectionAdd _ _ _ _ _ => true | _ => false end.

Definition is_query (c : call) : bool :=
  match c with CollectionQuery _ _ _ _ => true | _ => false end.

Definition is_embed (c : call) : bool :=
  match c with EmbedText _ => true | _ => false end.

(** From the state [s], the backend returns the collection [c] for the
    store's [get_or_create_collection] and is then in the state [w]. *)
Definition collection_ready (s : state) (c : Collection) (w : W) : Prop :=
  get_or_create_collection (chroma_client (self s)) (index_name (self s))
    (_metadata (self s)) (native_function (embedding_function (self s)))
    (backend s) = (Ok c, w).

(** From the state [s], the backend answers the 1-nearest-neighbour
    query that [find_similar text] issues with [qr]. *)
Definition answers_find_similar (s : state) (text : string) (qr : QueryResult) : Prop :=
  exists c w w',
    collection_ready s c w /\
    match embedding_function (self s) with
    | AnEmbeddings e =>
        exists embedding,
          embed_text e [text] = Ok embedding /\
          collection_query (chroma_client (self s)) c (Some embedding) None 1 w
          = (Ok qr, w')
    | AChromaFunction _ =>
        collection_query (chroma_client (self s)) c None (Some [text]) 1 w
        = (Ok qr, w')
    end.

(** From the state [s], the backend answers the [k]-nearest-neighbour
    query that [retrieve vector k] issues with [qr]. *)
Definition answers_retrieve (s : state) (vector : list float) (k : Z)
    (qr : QueryResult) : Prop :=
  exists c w w',
    collection_ready s c w /\
    collection_query (chroma_client (self s)) c (Some [vector]) None k w = (Ok qr, w').

End Store.

Arguments ClientAPI : clear implicits.
Arguments ChromaDBStore : clear implicits.
Arguments call : clear implicits.
Arguments state : clear implicits.
Arguments M : clear implicits.

(** ** An in-memory backend

    A backend with the interface the store consumes: named collections
    of rows, each row under an ID, and exact nearest-neighbour queries.
    It is the backend on which the store is run on concrete inputs. *)
Module MemoryBackend.

Record row : Type := mkRow {
  row_document : string;
  row_metadata : gmap string value;
  row_embedding : list float;
}.

(** The rows are kept in the order of their insertion. *)
Record collection : Type := mkCollection {
  c_metadata : gmap string string;
  c_rows : list (string * row);
}.

Record handle : Type := mkHandle {
  h_name : string;
  h_ef : option ChromaEmbeddingFunction;
}.

(** What [add] does with an ID that the collection already holds: leave
    the row as it is, or replace it. *)
Inductive policy : Type := Skip | Overwrite.

Definition has_id (i : string) (rows : list (string * row)) : bool :=
  bool_decide (i ∈ rows.*1).

Definition replace_row (i : string) (r : row) (rows : list (string * row)) :
    list (string * row) :=
  (fun ir : string * row => if decide (ir.1 = i) then (i, r) else ir) <$> rows.


Definition put (p : policy) (rows : list (string * row)) (ir : string * row) :
    list (string * row) :=
  if has_id ir.1 rows then
    match p with
    | Skip => rows
    | Overwrite => replace_row ir.1 ir.2 rows
    end
  else rows ++ [ir].

(** What a batch of overwriting [put]s makes of one row that is there:
    each element of the batch with the ID of the row replaces it. *)
Definition overwrite_step (b ir : string * row) : string * row :=
  if decide (ir.1 = b.1) then (b.1, b.2) else ir.

Definition overwrite_with (batch : list (string * row)) (ir : string * row) :
    string * row :=
  foldl (fun ir' b => overwrite_step b ir') ir batch.

(** Every collection holds at most one row for an ID. *)
Definition well_keyed (w : gmap string collection) : Prop :=
  forall name c, w !! name = Some c -> NoDup (c_rows c).*1.

Definition mem_get_or_create (name : string) (metadata : gmap string string)
    (ef : option ChromaEmbeddingFunction) (w : gmap string collection) :
    outcome handle * gmap string collection :=
  match w !! name with
  | Some _ => (Ok (mkHandle name ef), w)
  | None => (Ok (mkHandle name ef), <[name := mkCollection metadata []]> w)
  end.

Definition new_rows (ids : list string) (embeddings : list (list float))
    (documents : list string) (metadatas : list (gmap string value)) :
    list (string * row) :=
  zip ids (zip_with (fun dm e => mkRow dm.1 dm.2 e) (zip documents metadatas) embeddings).

Definition mem_add (p : policy) (h : handle) (ids : list string)
    (embeddings : option (list (list float))) (documents : list string)
    (metadatas : list (gmap string value)) (w : gmap string collection) :
    outcome unit * gmap string collection :=
  match w !! h_name h with
  | None => (Raised (BackendError "collection does not exist"), w)
  | Some c =>
      let embedded :=
        match embeddings, h_ef h with
        | Some es, _ => Some es
        | None, Some f => Some (ef_call f documents)
        | None, None => None
        end in
      match embedded with
      | None => (Raised (BackendError "no embeddings and no embedding function"), w)
      | Some es =>
          if bool_decide (length ids = length documents
                          ∧ length ids = length metadatas
                          ∧ length ids = length es)
          then
            let rows := foldl (put p) (c_rows c) (new_rows ids es documents metadatas) in
            (Ok tt, <[h_name h := mkCollection (c_metadata c) rows]> w)
          else (Raised (BackendError "lengths of the columns differ"), w)
      end
  end.

Definition dot (a b : list float) : float :=
  foldl PrimFloat.add 0%float (zip_with PrimFloat.mul a b).

(** The distance of the space named in the metadata of the collection;
    ["l2"], the squared Euclidean distance, when none is named. *)
Definition distance (space : option string) (a b : list float) : float :=
  match space with
  | Some "ip"%string => PrimFloat.sub 1%float (dot a b)
  | Some "cosine"%string =>
      PrimFloat.sub 1%float
        (PrimFloat.div (dot a b)
           (PrimFloat.mul (PrimFloat.sqrt (dot a a)) (PrimFloat.sqrt (dot b b))))
  | _ =>
      let d := zip_with PrimFloat.sub a b in
      dot d d
  end.

(** Insertion of a row among rows sorted by distance, after the rows
    that are as near. *)
Fixpoint insert_by_distance (x : float * (string * row))
    (l : list (float * (string * row))) : list (float * (string * row)) :=
  match l with
  | [] => [x]
  | y :: rest =>
      if PrimFloat.ltb x.1 y.1 then x :: l
      else y :: insert_by_distance x rest
  end.

Definition nearest (space : option string) (n : nat) (rows : list (string * row))
    (q : list float) : list (float * (string * row)) :=
  take n (foldl (fun acc ir => insert_by_distance (distance space q (row_embedding ir.2), ir) acc)
                [] rows).

Definition mem_query (h : handle) (query_embeddings : option (list (list float)))
    (query_texts : option (list string)) (n_results : Z)
    (w : gmap string collection) : outcome QueryResult * gmap string collection :=
  match w !! h_name h with
  | None => (Raised (BackendError "collection does not exist"), w)
  | Some c =>
      let queries :=
        match query_embeddings, query_texts, h_ef h with
        | Some qs, _, _ => Some qs
        | None, Some ts, Some f => Some (ef_call f ts)
        | _, _, _ => None
        end in
      match queries with
      | None => (Raised (BackendError "no query embeddings"), w)
      | Some qs =>
          if n_results <=? 0
          then (Raised (BackendError "the number of results is not positive"), w)
          else
            let found :=
              nearest (c_metadata c !! "hnsw:space") (Z.to_nat n_results) (c_rows c) <$> qs in
            (Ok (mkQueryResult
                   ((fun rs => (fun r => r.2.1) <$> rs) <$> found)
                   ((fun rs => (fun r => row_document r.2.2) <$> rs) <$> found)
                   ((fun rs => (fun r => row_metadata r.2.2) <$> rs) <$> found)
                   ((fun rs => (fun r => r.1) <$> rs) <$> found)), w)
      end
  end.

Definition client (p : policy) : ClientAPI (gmap string collection) handle :=
  mkClientAPI mem_get_or_create (mem_add p) mem_query.



End MemoryBackend.

(** ** A scenario

    A store over the in-memory backend, with an embedding provider
    simple enough to be run: the embedding of a text is its length and
    its first byte. *)
Module Scenario.

Import MemoryBackend.

Definition float_of_Z (z : Z) : float := PrimFloat.of_uint63 (Uint63.of_Z z).

Definition toy_vector (t : string) : list float :=
  [ float_of_Z (Z.of_nat (String.length t));
    float_of_Z match t with
               | String a _ => Z.of_N (N_of_ascii a)
               | EmptyString => 0
               end ].

Definition toy_embeddings : Embeddings :=
  mkEmbeddings (fun texts => Ok (toy_vector <$> texts)).

Definition toy_function : ChromaEmbeddingFunction :=
  mkChromaEmbeddingFunction (fmap toy_vector).

(** The object before [__init__] has run; [__init__] reads none of its
    fields. *)
Definition blank (p : policy) : state (gmap string collection) handle :=
  mkState (mkChromaDBStore "" (client p) (AnEmbeddings toy_embeddings) None ∅) ∅ [].

(** [ChromaDBStore("documents", client, ef, max_distance)]; the
    initialiser of the base class returns. *)
Definition constructed (p : policy) (ef : embedder) (max_d : option float) :
    state (gmap string collection) handle :=
  (__init__ true (ret tt) "documents" (client p) ef max_d l2 (blank p)).2.

Definition apple : VectorDBEntry :=
  mkVectorDBEntry "fruit/1" "apple" {[ "lang" := "en" ]}.

Definition banana : VectorDBEntry :=
  mkVectorDBEntry "fruit/2" "banana" ∅.

Definition first_copy : VectorDBEntry :=
  mkVectorDBEntry "a.txt" "same text" ∅.

Definition second_copy : VectorDBEntry :=
  mkVectorDBEntry "b.txt" "same text" ∅.

(** The state in which [store entries] leaves a newly constructed store. *)
Definition stocked (p : policy) (ef : embedder) (max_d : option float)
    (entries : list VectorDBEntry) : state (gmap string collection) handle :=
  (store entries (constructed p ef max_d)).2.

(** The answer of the backend, when it gave one. *)
Definition answer_of {W} (r : outcome QueryResult * W) : QueryResult :=
  match r.1 with
  | Ok qr => qr
  | Raised _ => mkQueryResult [] [] [] []
  end.

(** A store for the collection ["documents"] over any client, before
    any call. *)
Definition store_over (cl : ClientAPI (gmap string collection) handle)
    (ef : embedder) (max_d : option float) (d : distance_method) :
    state (gmap string collection) handle :=
  mkState (mkChromaDBStore "documents" cl ef max_d
             {[ "hnsw:space" := distance_method_str d ]}) ∅ [].

(** Collaborators that fail: a provider that cannot embed, a backend
    that cannot return a collection, a backend that cannot query. *)
Definition failing_embeddings : Embeddings :=
  mkEmbeddings (fun _ => Raised (BackendError "provider unavailable")).

(** A provider that returns no embedding, whatever the texts. *)
Definition short_embeddings : Embeddings :=
  mkEmbeddings (fun _ => Ok []).

Definition offline_client : ClientAPI (gmap string collection) handle :=
  mkClientAPI (fun _ _ _ w => (Raised (BackendError "backend offline"), w))
              (mem_add Skip) mem_query.

Definition deaf_client : ClientAPI (gmap string collection) handle :=
  mkClientAPI mem_get_or_create (mem_add Skip)
              (fun _ _ _ _ w => (Raised (BackendError "query failed"), w)).

(** An entry with an empty payload: its embedding is the zero vector,
    at no cosine distance from anything. *)
Definition blank_entry : VectorDBEntry :=
  mkVectorDBEntry "empty.txt" "" ∅.

(** The handle of the collection, when the store embeds by itself. *)
Abbreviation documents_handle := (mkHandle "documents" None).

(** The answer of a backend that finds no row. *)
Abbreviation empty_answer := (mkQueryResult [[]] [[]] [[]] [[]]).

(** The store after the two fruits have been stored. *)
Abbreviation fruit_store max_d :=
  (stocked Skip (AnEmbeddings toy_embeddings) max_d [apple; banana]).

(** The answer of the backend, holding the two fruits, to a query. *)
Abbreviation fruit_answer v k :=
  (answer_of (mem_query documents_handle (Some [v]) None k (backend (fruit_store None)))).

Abbreviation copies := [first_copy; second_copy; apple].

End Scenario.

(** * Properties *)

Section StoreFacts.

Context {W Collection : Type}.

Abbreviation M := (M W Collection).
Abbreviation state := (state W Collection).
Abbreviation call := (call Collection).

Ltac run :=
  unfold store, _store, retrieve, find_similar, _return_best_match,
    _get_chroma_collection, __init__, new_VectorDBEntry, index0,
    mbind, mret, M_bind, M_ret, bind, ret, raise, attr, set_attr,
    invoke, invoke_embed_text in *;
  simpl in *.

(** ** The store object is not written to *)

Lemma preserves_ret {A} (a : A) : preserves_self (ret a : M A).
Proof. intros s. reflexivity. Qed.

Lemma preserves_raise {A} e : preserves_self (raise e : M A).
Proof. intros s. reflexivity. Qed.

Lemma preserves_attr {A} (f : ChromaDBStore W Collection -> A) :
  preserves_self (attr f).
Proof. intros s. reflexivity. Qed.

Lemma preserves_invoke {A} (c : call) (f : W -> outcome A * W) :
  preserves_self (invoke c f).
Proof. intros s. unfold invoke. destruct (f (backend s)). reflexivity. Qed.

Lemma preserves_invoke_embed_text e texts :
  preserves_self (invoke_embed_text (W := W) (Collection := Collection) e texts).
Proof. intros s. reflexivity. Qed.

Lemma preserves_bind {A B} (m : M A) (k : A -> M B) :
  preserves_self m -> (forall a, preserves_self (k a)) ->
  preserves_self (m ≫= k).
Proof.
  intros Hm Hk s. unfold mbind, M_bind, bind.
  specialize (Hm s). destruct (m s) as [[a|e] s'] eqn:E; simpl in *.
  - rewrite Hk. exact Hm.
  - exact Hm.
Qed.

Lemma preserves_index0 {A} (l : list A) : preserves_self (index0 l : M A).
Proof. destruct l; intros s; reflexivity. Qed.

Lemma preserves_new_VectorDBEntry k v m :
  preserves_self (new_VectorDBEntry k v m : M VectorDBEntry).
Proof.
  unfold new_VectorDBEntry.
  destruct k as [[?|?]|]; try apply preserves_raise;
    destruct m as [[?|?]|]; first [apply preserves_raise | apply preserves_ret].
Qed.

Lemma preserves_for_each {A B} (f : A -> M B) (l : list A) :
  (forall x, preserves_self (f x)) -> preserves_self (for_each f l).
Proof.
  intros Hf. induction l as [|x l IH]; simpl.
  - apply preserves_ret.
  - apply preserves_bind; [apply Hf|]. intros y.
    apply preserves_bind; [apply IH|]. intros ys. apply preserves_ret.
Qed.

Create HintDb frame.
#[local] Hint Resolve preserves_ret preserves_raise preserves_attr
  preserves_invoke preserves_invoke_embed_text preserves_index0
  preserves_new_VectorDBEntry : frame.

Ltac frame :=
  repeat first
    [ apply preserves_bind; [|intros ?]
    | apply preserves_for_each; intros [? ?]
    | solve [auto with frame]
    | match goal with |- preserves_self (match ?x with _ => _ end) => destruct x end ].

Lemma preserves__get_chroma_collection :
  preserves_self (_get_chroma_collection : M Collection).
Proof. unfold _get_chroma_collection. frame. Qed.

Lemma preserves__return_best_match qr :
  preserves_self (_return_best_match qr : M (option string)).
Proof. unfold _return_best_match. frame. Qed.

#[local] Hint Resolve preserves__get_chroma_collection
  preserves__return_best_match : frame.

Lemma preserves_store es : preserves_self (store es : M unit).
Proof. unfold store, _store. frame. Qed.

Lemma preserves_retrieve v k : preserves_self (retrieve v k : M (list VectorDBEntry)).
Proof. unfold retrieve. frame. Qed.

Lemma preserves_find_similar t : preserves_self (find_similar t : M (option string)).
Proof. unfold find_similar. frame. Qed.

(** C9: no call to [store], [retrieve] or [find_similar] changes the
    store object: after the call, whatever its outcome, the index name,
    the backend client, the embedding function, the threshold
    [max_distance] and the distance-metric metadata are the ones from
    before the call. *)
Theorem operations_keep_configuration (s : state) :
  (forall es, self (store es s).2 = self s) /\
  (forall v k, self (retrieve v k s).2 = self s) /\
  (forall t, self (find_similar t s).2 = self s).
Proof.
  split; [|split]; intros.
  - apply preserves_store.
  - apply preserves_retrieve.
  - apply preserves_find_similar.
Qed.

(** ** The calls made to the collaborators *)

Lemma appends_ret {A} (a : A) : appends (ret a : M A).
Proof. intros s. exists []. simpl. by rewrite app_nil_r. Qed.

Lemma appends_raise {A} e : appends (raise e : M A).
Proof. intros s. exists []. simpl. by rewrite app_nil_r. Qed.

Lemma appends_attr {A} (f : ChromaDBStore W Collection -> A) : appends (attr f).
Proof. intros s. exists []. simpl. by rewrite app_nil_r. Qed.

Lemma appends_invoke {A} (c : call) (f : W -> outcome A * W) : appends (invoke c f).
Proof. intros s. exists [c]. unfold invoke. by destruct (f (backend s)). Qed.

Lemma appends_invoke_embed_text e texts :
  appends (invoke_embed_text (W := W) (Collection := Collection) e texts).
Proof. intros s. by exists [EmbedText texts]. Qed.

Lemma appends_bind {A B} (m : M A) (k : A -> M B) :
  appends m -> (forall a, appends (k a)) -> appends (m ≫= k).
Proof.
  intros Hm Hk s. unfold mbind, M_bind, bind.
  destruct (Hm s) as [l Hl]. destruct (m s) as [[a|e] s']; simpl in *.
  - destruct (Hk a s') as [l' Hl']. exists (l ++ l').
    by rewrite Hl', Hl, app_assoc.
  - by exists l.
Qed.

Lemma appends_index0 {A} (l : list A) : appends (index0 l : M A).
Proof. destruct l; [apply appends_raise | apply appends_ret]. Qed.

Lemma appends_new_VectorDBEntry k v m :
  appends (new_VectorDBEntry k v m : M VectorDBEntry).
Proof.
  unfold new_VectorDBEntry.
  destruct k as [[?|?]|]; try apply appends_raise;
    destruct m as [[?|?]|]; first [apply appends_raise | apply appends_ret].
Qed.

Lemma appends_for_each {A B} (f : A -> M B) (l : list A) :
  (forall x, appends (f x)) -> appends (for_each f l).
Proof.
  intros Hf. induction l as [|x l IH]; simpl.
  - apply appends_ret.
  - apply appends_bind; [apply Hf|]. intros y.
    apply appends_bind; [apply IH|]. intros ys. apply appends_ret.
Qed.

#[local] Hint Resolve appends_ret appends_raise appends_attr appends_invoke
  appends_invoke_embed_text appends_index0 appends_new_VectorDBEntry : frame.

Ltac appends :=
  repeat first
    [ apply appends_bind; [|intros ?]
    | apply appends_for_each; intros [? ?]
    | solve [auto with frame]
    | match goal with |- appends (match ?x with _ => _ end) => destruct x end ].

Lemma appends__return_best_match qr :
  appends (_return_best_match qr : M (option string)).
Proof. unfold _return_best_match. appends. Qed.

Lemma _get_chroma_collection_run (s : state) :
  _get_chroma_collection s =
  ((get_or_create_collection (chroma_client (self s)) (index_name (self s))
      (_metadata (self s)) (native_function (embedding_function (self s)))
      (backend s)).1,
   mkState (self s)
     (get_or_create_collection (chroma_client (self s)) (index_name (self s))
        (_metadata (self s)) (native_function (embedding_function (self s)))
        (backend s)).2
     (calls s ++ [ensure_call (self s)])).
Proof.
  run. unfold ensure_call.
  destruct (embedding_function (self s)); simpl;
    destruct (get_or_create_collection _ _ _ _ _); reflexivity.
Qed.

Lemma new_calls_after_ensure {A} (k : Collection -> M A) (s : state) :
  (forall c, appends (k c)) ->
  exists rest, new_calls (_get_chroma_collection ≫= k) s = ensure_call (self s) :: rest.
Proof.
  intros Hk. unfold new_calls, mbind, M_bind, bind.
  rewrite _get_chroma_collection_run.
  destruct (get_or_create_collection _ _ _ _ _) as [[c|e] w]; simpl.
  - match goal with |- context [k c ?s'] => destruct (Hk c s') as [l Hl] end.
    rewrite Hl. simpl. rewrite <- app_assoc, drop_app_length. by eexists.
  - rewrite drop_app_length. by eexists.
Qed.

(** The first call of each entry point. *)
Lemma first_call_of_entry_points (s : state) :
  (forall es, exists rest, new_calls (store es) s = ensure_call (self s) :: rest) /\
  (forall v k, exists rest, new_calls (retrieve v k) s = ensure_call (self s) :: rest) /\
  (forall t, exists rest, new_calls (find_similar t) s = ensure_call (self s) :: rest).
Proof.
  split; [|split]; intros.
  - apply new_calls_after_ensure. intros c. appends.
  - apply new_calls_after_ensure. intros c. appends.
  - apply new_calls_after_ensure. intros c.
    pose proof appends__return_best_match. appends.
Qed.

(** What [__init__] leaves when the backend dependency is there and the
    initialiser of the base class returns. *)
Lemma __init___run super name cl e md d (s s' : state) :
  super s = (Ok tt, s') ->
  __init__ true super name cl e md d s =
  (Ok tt,
   mkState (mkChromaDBStore name cl e md {[ "hnsw:space" := distance_method_str d ]})
           (backend s') (calls s')).
Proof. intros Hs. run. rewrite Hs. reflexivity. Qed.

Lemma __init___ok super name cl e md d (s s1 : state) :
  __init__ true super name cl e md d s = (Ok tt, s1) ->
  self s1 = mkChromaDBStore name cl e md {[ "hnsw:space" := distance_method_str d ]}.
Proof.
  intros H. destruct (super s) as [[[]|x] s'] eqn:Hs.
  - rewrite (__init___run _ _ _ _ _ _ _ _ Hs) in H. by inversion H.
  - run. rewrite Hs in H. discriminate.
Qed.

(** C8: each of [store], [retrieve] and [find_similar], run on a store
    that was constructed for the index [name] with the distance method
    [d], starts by asking the backend to get or create the collection
    [name], with the metadata that tags it with [d]; it does so in every
    state of the backend, whether the collection exists there or not. *)
Theorem entry_points_ensure_collection super name cl e md d (s0 s1 s : state) :
  __init__ true super name cl e md d s0 = (Ok tt, s1) ->
  self s = self s1 ->
  let ensure :=
    GetOrCreateCollection name {[ "hnsw:space" := distance_method_str d ]}
      (native_function e) in
  (forall es, exists rest, new_calls (store es) s = ensure :: rest) /\
  (forall v k, exists rest, new_calls (retrieve v k) s = ensure :: rest) /\
  (forall t, exists rest, new_calls (find_similar t) s = ensure :: rest).
Proof.
  intros Hinit Hself. apply __init___ok in Hinit.
  pose proof (first_call_of_entry_points s) as H.
  rewrite Hself, Hinit in H. exact H.
Qed.

(** ** Running [store] *)

Lemma store_run (s : state) es c w :
  collection_ready s c w ->
  store es s =
  match embedding_function (self s) with
  | AnEmbeddings e =>
      match embed_text e (documents_of es) with
      | Ok embeddings =>
          let r := collection_add (chroma_client (self s)) c (ids_of es)
                     (Some embeddings) (documents_of es) (metadatas_of es) w in
          (r.1, mkState (self s) r.2
                  (calls s ++ [ensure_call (self s); EmbedText (documents_of es);
                               CollectionAdd c (ids_of es) (Some embeddings)
                                 (documents_of es) (metadatas_of es)]))
      | Raised x =>
          (Raised x, mkState (self s) w
                       (calls s ++ [ensure_call (self s); EmbedText (documents_of es)]))
      end
  | AChromaFunction _ =>
      let r := collection_add (chroma_client (self s)) c (ids_of es)
                 None (documents_of es) (metadatas_of es) w in
      (r.1, mkState (self s) r.2
              (calls s ++ [ensure_call (self s);
                           CollectionAdd c (ids_of es) None
                             (documents_of es) (metadatas_of es)]))
  end.
Proof.
  unfold collection_ready. intros Hc.
  unfold store, _store, mbind, M_bind, bind.
  rewrite _get_chroma_collection_run, Hc. simpl.
  unfold ids_of, documents_of, metadatas_of.
  rewrite <- !list_fmap_compose. unfold compose. simpl.
  destruct (embedding_function (self s)) as [e|f]; simpl.
  - unfold invoke_embed_text, invoke. simpl.
    destruct (embed_text e _) as [embeddings|x]; simpl.
    + destruct (collection_add _ _ _ _ _ _ _); simpl.
      by rewrite <- !app_assoc.
    + by rewrite <- !app_assoc.
  - unfold invoke. simpl.
    destruct (collection_add _ _ _ _ _ _ _); simpl.
    by rewrite <- !app_assoc.
Qed.

(** C6: once the backend has returned the collection, [store] makes,
    with an [Embeddings] provider, exactly one call to the provider, with
    the payload texts of the whole batch, and then, if that call returns,
    a single [add] that carries the embeddings it returned; with an
    embedding function of the backend, it makes no call to a provider
    and a single [add] without embeddings. *)
Theorem store_embeds_in_one_batched_call (s : state) es c w :
  collection_ready s c w ->
  new_calls (store es) s =
  match embedding_function (self s) with
  | AnEmbeddings e =>
      ensure_call (self s) :: EmbedText (vector <$> es) ::
      match embed_text e (vector <$> es) with
      | Ok embeddings =>
          [CollectionAdd c (ids_of es) (Some embeddings) (vector <$> es) (metadatas_of es)]
      | Raised _ => []
      end
  | AChromaFunction _ =>
      [ensure_call (self s);
       CollectionAdd c (ids_of es) None (vector <$> es) (metadatas_of es)]
  end.
Proof.
  intros Hc. unfold new_calls. rewrite (store_run _ _ _ _ Hc).
  fold (documents_of es).
  destruct (embedding_function (self s)) as [e|f]; simpl.
  - destruct (embed_text e _); simpl; by rewrite drop_app_length.
  - by rewrite drop_app_length.
Qed.

(** ** Running [find_similar] and [retrieve] *)

Lemma find_similar_run (s : state) text qr :
  answers_find_similar s text qr ->
  exists s', self s' = self s /\ find_similar text s = _return_best_match qr s'.
Proof.
  intros (c & w & w' & Hc & Hq). unfold collection_ready in Hc.
  unfold find_similar, mbind, M_bind, bind.
  rewrite _get_chroma_collection_run, Hc. simpl.
  destruct (embedding_function (self s)) as [e|f]; simpl in *.
  - destruct Hq as (embedding & He & Hq).
    unfold invoke_embed_text, invoke. simpl. rewrite He, Hq. simpl.
    eexists. split; [|reflexivity]. reflexivity.
  - unfold invoke. simpl. rewrite Hq.
    eexists. split; [|reflexivity]. reflexivity.
Qed.

Lemma _return_best_match_found (s : state) qr doc docs dss d ds dss' :
  documents qr = (doc :: docs) :: dss ->
  distances qr = (d :: ds) :: dss' ->
  _return_best_match qr s =
  (Ok match max_distance (self s) with
      | Some m => if PrimFloat.leb d m then Some doc else None
      | None => Some doc
      end, s).
Proof.
  intros Hdoc Hdist. run. rewrite Hdoc, Hdist.
  destruct (max_distance (self s)) as [m|]; simpl; [|reflexivity].
  by destruct (PrimFloat.leb d m).
Qed.

Lemma _return_best_match_empty (s : state) qr :
  documents qr = [[]] -> distances qr = [[]] ->
  _return_best_match qr s = (Raised IndexError, s).
Proof.
  intros Hdoc Hdist. run. rewrite Hdoc, Hdist.
  by destruct (max_distance (self s)).
Qed.

(** C1, as the code has it: when the backend answers the
    1-nearest-neighbour query of [find_similar] with no document and no
    distance, [find_similar] raises [IndexError], with a [max_distance]
    and without one; it does not return [None]. *)
Theorem find_similar_of_empty_answer (s : state) text qr :
  answers_find_similar s text qr ->
  documents qr = [[]] -> distances qr = [[]] ->
  (find_similar text s).1 = Raised IndexError.
Proof.
  intros Ha Hdoc Hdist. destruct (find_similar_run _ _ _ Ha) as (s' & _ & ->).
  by rewrite _return_best_match_empty.
Qed.

(** C4: when the backend answers the 1-nearest-neighbour query of
    [find_similar] with a first document [doc] at the distance [d], then
    [find_similar] returns [doc] if no [max_distance] is set; if
    [max_distance] is [m], it returns [doc] when [d <= m] and no match
    ([None]) otherwise. *)
Theorem find_similar_acceptance (s : state) text qr doc docs dss d ds dss' :
  answers_find_similar s text qr ->
  documents qr = (doc :: docs) :: dss ->
  distances qr = (d :: ds) :: dss' ->
  (find_similar text s).1 =
  Ok match max_distance (self s) with
     | Some m => if PrimFloat.leb d m then Some doc else None
     | None => Some doc
     end.
Proof.
  intros Ha Hdoc Hdist. destruct (find_similar_run _ _ _ Ha) as (s' & Hs' & ->).
  rewrite (_return_best_match_found _ _ _ _ _ _ _ _ Hdoc Hdist). simpl.
  by rewrite Hs'.
Qed.

Lemma retrieve_run (s : state) v k qr docs metas :
  answers_retrieve s v k qr ->
  documents qr = [docs] -> metadatas qr = [metas] ->
  (retrieve v k s).1 =
  match entry_of_rows docs metas with
  | Ok e => Ok [e]
  | Raised x => Raised x
  end.
Proof.
  intros (c & w & w' & Hc & Hq) Hdocs Hmetas. unfold collection_ready in Hc.
  unfold retrieve, mbind, M_bind, bind.
  rewrite _get_chroma_collection_run, Hc. simpl.
  unfold invoke. simpl. rewrite Hq. simpl. rewrite Hdocs, Hmetas. simpl.
  unfold entry_of_rows, index0, new_VectorDBEntry, ret, raise.
  destruct metas as [|meta0 metas]; [reflexivity|].
  destruct docs as [|doc0 docs]; [reflexivity|]. simpl.
  destruct (meta0 !! "key") as [[?|?]|]; try reflexivity.
  destruct (meta0 !! "metadata") as [[?|?]|]; reflexivity.
Qed.

(** C2, as the code has it: [retrieve] builds one entry for each query,
    not one for each row.  For the one query it issues, whose answer has
    the documents [docs] and the metadata [metas] of the rows found, it
    raises [IndexError] when no row was found, and otherwise returns at
    most the entry of the first row, whatever the number of rows and
    whatever [k]. *)
Theorem retrieve_reads_first_row_only (s : state) v k qr docs metas :
  answers_retrieve s v k qr ->
  documents qr = [docs] -> metadatas qr = [metas] ->
  (metas = [] -> (retrieve v k s).1 = Raised IndexError) /\
  (forall entries, (retrieve v k s).1 = Ok entries ->
     exists doc0 docs', docs = doc0 :: docs' /\ vector <$> entries = [doc0]).
Proof.
  intros Ha Hdocs Hmetas. rewrite (retrieve_run _ _ _ _ _ _ Ha Hdocs Hmetas).
  unfold entry_of_rows. split.
  - by intros ->.
  - intros entries. destruct metas as [|meta0 metas']; [done|].
    destruct docs as [|doc0 docs']; [done|].
    destruct (meta0 !! "key") as [[?|?]|]; try done.
    destruct (meta0 !! "metadata") as [[?|?]|]; try done.
    intros [= <-]. by eexists _, _.
Qed.

Lemma row_metadata_key (k : string) (m : gmap string string) :
  ({[ "key" := VStr k; "metadata" := VDict m ]} : gmap string value) !! "key"
  = Some (VStr k).
Proof. reflexivity. Qed.

Lemma row_metadata_metadata (k : string) (m : gmap string string) :
  ({[ "key" := VStr k; "metadata" := VDict m ]} : gmap string value) !! "metadata"
  = Some (VDict m).
Proof. reflexivity. Qed.

Lemma store_add_calls (s : state) es c ids embeddings docs metas :
  CollectionAdd c ids embeddings docs metas ∈ new_calls (store es) s ->
  ids = ids_of es /\ docs = documents_of es /\ metas = metadatas_of es.
Proof.
  unfold new_calls.
  destruct (get_or_create_collection (chroma_client (self s)) (index_name (self s))
              (_metadata (self s)) (native_function (embedding_function (self s)))
              (backend s)) as [[c'|x] w] eqn:Hc.
  - rewrite (store_run s es c' w Hc).
    destruct (embedding_function (self s)) as [e|f]; simpl.
    + destruct (embed_text e _); simpl; rewrite drop_app_length;
        rewrite ?elem_of_cons, ?elem_of_nil;
        unfold ensure_call; intros H; decompose [or] H; try discriminate; try done.
      by simplify_eq.
    + rewrite drop_app_length, ?elem_of_cons, ?elem_of_nil;
        unfold ensure_call; intros H; decompose [or] H; try discriminate; try done.
      by simplify_eq.
  - unfold store, _store, mbind, M_bind, bind.
    rewrite _get_chroma_collection_run, Hc. simpl.
    rewrite drop_app_length, elem_of_cons, elem_of_nil. unfold ensure_call.
    intros [?|?]; [discriminate|done].
Qed.

End StoreFacts.

(** ** The in-memory backend keeps one row for an ID *)

Section MemoryFacts.

Import MemoryBackend.

Implicit Types (rows batch : list (string * row)) (ir : string * row).

Lemma overwrite_step_keys b rows : (overwrite_step b <$> rows).*1 = rows.*1.
Proof.
  rewrite <- list_fmap_compose. apply list_fmap_ext. intros ? ir _. simpl.
  unfold overwrite_step. by case_decide.
Qed.

Lemma replace_row_overwrite i r rows :
  replace_row i r rows = overwrite_step (i, r) <$> rows.
Proof. reflexivity. Qed.

Lemma replace_row_keys i r rows : (replace_row i r rows).*1 = rows.*1.
Proof. rewrite replace_row_overwrite. apply overwrite_step_keys. Qed.

Lemma put_keys_present p rows ir :
  ir.1 ∈ rows.*1 -> (put p rows ir).*1 = rows.*1.
Proof.
  intros Hin. unfold put, has_id. rewrite bool_decide_eq_true_2 by done.
  destruct p; [done|apply replace_row_keys].
Qed.

Lemma put_keys_absent p rows ir :
  ir.1 ∉ rows.*1 -> (put p rows ir).*1 = rows.*1 ++ [ir.1].
Proof.
  intros Hin. unfold put, has_id. rewrite bool_decide_eq_false_2 by done.
  by rewrite fmap_app.
Qed.

Lemma put_keys p rows ir x :
  x ∈ (put p rows ir).*1 <-> x ∈ rows.*1 \/ x = ir.1.
Proof.
  destruct (decide (ir.1 ∈ rows.*1)) as [Hin|Hin].
  - rewrite put_keys_present by done. split; [by left|]. by intros [?| ->].
  - rewrite put_keys_absent by done. rewrite elem_of_app, list_elem_of_singleton. done.
Qed.

Lemma put_NoDup p rows ir : NoDup rows.*1 -> NoDup (put p rows ir).*1.
Proof.
  intros Hnd. destruct (decide (ir.1 ∈ rows.*1)) as [Hin|Hin].
  - by rewrite put_keys_present.
  - rewrite put_keys_absent by done. apply NoDup_app. split; [done|].
    split; [|apply NoDup_singleton]. intros x Hx ->%list_elem_of_singleton. done.
Qed.

Lemma foldl_put_NoDup p batch rows :
  NoDup rows.*1 -> NoDup (foldl (put p) rows batch).*1.
Proof.
  revert rows. induction batch as [|ir batch IH]; intros rows Hnd; simpl; [done|].
  apply IH. by apply put_NoDup.
Qed.

Lemma foldl_put_keys p batch rows x :
  x ∈ (foldl (put p) rows batch).*1 <-> x ∈ rows.*1 \/ x ∈ batch.*1.
Proof.
  revert rows. induction batch as [|ir batch IH]; intros rows; simpl.
  - rewrite elem_of_nil. tauto.
  - rewrite IH, put_keys, elem_of_cons. tauto.
Qed.

Lemma foldl_put_skip_present batch rows :
  (forall x, x ∈ batch.*1 -> x ∈ rows.*1) ->
  foldl (put Skip) rows batch = rows.
Proof.
  induction batch as [|ir batch IH]; intros Hin; simpl; [done|].
  assert (put Skip rows ir = rows) as ->.
  { unfold put, has_id. rewrite bool_decide_eq_true_2; [done|].
    apply Hin. simpl. left. }
  apply IH. intros x Hx. apply Hin. simpl. by right.
Qed.

Lemma overwrite_with_key batch ir : (overwrite_with batch ir).1 = ir.1.
Proof.
  revert ir. induction batch as [|b batch IH]; intros ir; simpl; [done|].
  unfold overwrite_with in *. simpl. rewrite IH. unfold overwrite_step. by case_decide.
Qed.

Lemma overwrite_step_same b ir : ir.1 = b.1 -> overwrite_step b ir = b.
Proof. intros H. unfold overwrite_step. rewrite decide_True by done. by destruct b. Qed.

Lemma overwrite_step_other b ir : ir.1 <> b.1 -> overwrite_step b ir = ir.
Proof. intros H. unfold overwrite_step. by rewrite decide_False. Qed.

Lemma foldl_put_overwrite_present batch rows :
  (forall x, x ∈ batch.*1 -> x ∈ rows.*1) ->
  foldl (put Overwrite) rows batch = overwrite_with batch <$> rows.
Proof.
  revert rows. induction batch as [|b batch IH]; intros rows Hin; simpl.
  - by rewrite list_fmap_id.
  - assert (put Overwrite rows b = overwrite_step b <$> rows) as ->.
    { unfold put, has_id. rewrite bool_decide_eq_true_2.
      - destruct b. apply replace_row_overwrite.
      - apply Hin. simpl. left. }
    rewrite IH.
    + by rewrite <- list_fmap_compose.
    + intros x Hx. rewrite overwrite_step_keys. apply Hin. simpl. by right.
Qed.

Lemma foldl_put_overwrite_stable batch rows x :
  x ∈ foldl (put Overwrite) rows batch -> overwrite_with batch x = x.
Proof.
  revert x. induction batch as [|b batch IH] using rev_ind; intros x; [done|].
  rewrite foldl_app. simpl. unfold overwrite_with. rewrite foldl_app. simpl.
  fold (overwrite_with batch x).
  set (R := foldl (put Overwrite) rows batch) in *.
  unfold put, has_id. case_bool_decide as Hb.
  - rewrite (replace_row_overwrite b.1 b.2). intros (y & -> & Hy)%list_elem_of_fmap_1.
    destruct (decide (y.1 = b.1)) as [Hyb|Hyb].
    + rewrite (overwrite_step_same (b.1, b.2) y) by done.
      rewrite overwrite_step_same; [by destruct b|].
      by rewrite overwrite_with_key.
    + rewrite (overwrite_step_other (b.1, b.2) y) by done.
      rewrite (IH _ Hy). by apply overwrite_step_other.
  - intros [Hx| ->%list_elem_of_singleton]%elem_of_app.
    + rewrite (IH _ Hx). apply overwrite_step_other. intros Heq.
      apply Hb. rewrite <- Heq. by apply list_elem_of_fmap_2.
    + apply overwrite_step_same. apply overwrite_with_key.
Qed.

Lemma foldl_put_twice p batch rows :
  foldl (put p) (foldl (put p) rows batch) batch = foldl (put p) rows batch.
Proof.
  destruct p.
  - apply foldl_put_skip_present. intros x Hx. apply foldl_put_keys. by right.
  - rewrite foldl_put_overwrite_present.
    + rewrite <- (list_fmap_id (foldl (put Overwrite) rows batch)) at 2.
      apply list_fmap_ext. intros ? x Hx. simpl.
      apply (foldl_put_overwrite_stable batch rows).
      by apply list_elem_of_lookup_2 in Hx.
    + intros x Hx. apply foldl_put_keys. by right.
Qed.

Lemma mem_add_twice p h ids embeddings docs metas w :
  mem_add p h ids embeddings docs metas (mem_add p h ids embeddings docs metas w).2
  = mem_add p h ids embeddings docs metas w.
Proof.
  unfold mem_add. destruct (w !! h_name h) as [c|] eqn:Hw; simpl; [|by rewrite Hw].
  destruct (match embeddings with Some _ => _ | None => _ end) as [es|];
    simpl; [|by rewrite Hw].
  case_bool_decide as Hlen; simpl; [|by rewrite Hw].
  rewrite lookup_insert_eq. simpl.
  by rewrite foldl_put_twice, insert_insert_eq.
Qed.

Lemma mem_add_well_keyed p h ids embeddings docs metas w :
  well_keyed w -> well_keyed (mem_add p h ids embeddings docs metas w).2.
Proof.
  intros Hw. unfold mem_add. destruct (w !! h_name h) as [c|] eqn:Hc; simpl; [|done].
  destruct (match embeddings with Some _ => _ | None => _ end) as [es|]; simpl; [|done].
  case_bool_decide; simpl; [|done].
  intros name c' [[<- <-]|[? Hc']]%lookup_insert_Some; simpl.
  - apply foldl_put_NoDup. by eapply Hw.
  - by eapply Hw.
Qed.

Lemma mem_add_keeps p h ids embeddings docs metas w name :
  is_Some (w !! name) ->
  is_Some ((mem_add p h ids embeddings docs metas w).2 !! name).
Proof.
  intros Hn. unfold mem_add. destruct (w !! h_name h) as [c|] eqn:Hc; simpl; [|done].
  destruct (match embeddings with Some _ => _ | None => _ end) as [es|]; simpl; [|done].
  case_bool_decide; simpl; [|done].
  rewrite lookup_insert_is_Some. destruct (decide (h_name h = name)); auto.
Qed.

Lemma mem_get_or_create_outcome name md ef w :
  (mem_get_or_create name md ef w).1 = Ok (mkHandle name ef).
Proof. unfold mem_get_or_create. by destruct (w !! name). Qed.

Lemma mem_get_or_create_there name md ef w :
  is_Some (w !! name) -> (mem_get_or_create name md ef w).2 = w.
Proof. intros [c Hc]. unfold mem_get_or_create. by rewrite Hc. Qed.

Lemma mem_get_or_create_ensures name md ef w :
  is_Some ((mem_get_or_create name md ef w).2 !! name).
Proof.
  unfold mem_get_or_create. destruct (w !! name) as [c|] eqn:Hc; simpl.
  - by rewrite Hc.
  - by rewrite lookup_insert_eq.
Qed.

Lemma mem_get_or_create_well_keyed name md ef w :
  well_keyed w -> well_keyed (mem_get_or_create name md ef w).2.
Proof.
  intros Hw. unfold mem_get_or_create. destruct (w !! name) as [c|] eqn:Hc; simpl; [done|].
  intros n c' [[<- <-]|[? Hc']]%lookup_insert_Some; simpl.
  - apply NoDup_nil_2.
  - by eapply Hw.
Qed.

Abbreviation mem_state := (state (gmap string collection) handle).

(** The collection that a store over the in-memory backend works on. *)
Lemma mem_collection_ready p (s : mem_state) :
  chroma_client (self s) = client p ->
  collection_ready s
    (mkHandle (index_name (self s)) (native_function (embedding_function (self s))))
    (mem_get_or_create (index_name (self s)) (_metadata (self s))
       (native_function (embedding_function (self s))) (backend s)).2.
Proof.
  intros Hcl. unfold collection_ready. rewrite Hcl. simpl.
  rewrite (surjective_pairing (mem_get_or_create _ _ _ _)).
  by rewrite mem_get_or_create_outcome.
Qed.

Lemma store_well_keyed p (s : mem_state) es :
  chroma_client (self s) = client p ->
  well_keyed (backend s) -> well_keyed (backend (store es s).2).
Proof.
  intros Hcl Hw. rewrite (store_run _ _ _ _ (mem_collection_ready p s Hcl)).
  pose proof (mem_get_or_create_well_keyed (index_name (self s)) (_metadata (self s))
    (native_function (embedding_function (self s))) _ Hw) as Hw'.
  rewrite Hcl. simpl.
  destruct (embedding_function (self s)) as [e|f]; simpl.
  - destruct (embed_text e _); simpl; [|done]. by apply mem_add_well_keyed.
  - by apply mem_add_well_keyed.
Qed.

Lemma store_ensures p (s : mem_state) es :
  chroma_client (self s) = client p ->
  is_Some (backend (store es s).2 !! index_name (self s)).
Proof.
  intros Hcl. rewrite (store_run _ _ _ _ (mem_collection_ready p s Hcl)).
  pose proof (mem_get_or_create_ensures (index_name (self s)) (_metadata (self s))
    (native_function (embedding_function (self s))) (backend s)) as Hn.
  rewrite Hcl. simpl.
  destruct (embedding_function (self s)) as [e|f]; simpl.
  - destruct (embed_text e _); simpl; [|done]. by apply mem_add_keeps.
  - by apply mem_add_keeps.
Qed.

(** Storing a batch a second time leaves the backend as the first time
    left it, and has the same outcome. *)
Lemma store_twice p (s : mem_state) es :
  chroma_client (self s) = client p ->
  (store es (store es s).2).1 = (store es s).1 /\
  backend (store es (store es s).2).2 = backend (store es s).2.
Proof.
  intros Hcl.
  pose proof (store_ensures p s es Hcl) as Hn.
  pose proof (preserves_store es s) as Hself.
  set (s1 := (store es s).2) in *.
  assert (chroma_client (self s1) = client p) as Hcl1 by by rewrite Hself.
  rewrite (store_run _ _ _ _ (mem_collection_ready p s1 Hcl1)).
  rewrite !Hself. rewrite mem_get_or_create_there by done.
  subst s1. rewrite (store_run _ _ _ _ (mem_collection_ready p s Hcl)).
  rewrite Hcl. simpl.
  destruct (embedding_function (self s)) as [e|f]; simpl.
  - destruct (embed_text e _); simpl; [|done]. by rewrite mem_add_twice.
  - by rewrite mem_add_twice.
Qed.

Lemma new_rows_keys ids es docs metas :
  length ids = length docs /\ length ids = length metas /\ length ids = length es ->
  (new_rows ids es docs metas).*1 = ids.
Proof.
  intros (Hd & Hm & He). unfold new_rows. apply fst_zip.
  rewrite length_zip_with, length_zip. lia.
Qed.

Lemma mem_add_ok_keys p h ids embeddings docs metas w x :
  (mem_add p h ids embeddings docs metas w).1 = Ok tt ->
  x ∈ ids ->
  exists c, (mem_add p h ids embeddings docs metas w).2 !! h_name h = Some c /\
            x ∈ (c_rows c).*1.
Proof.
  unfold mem_add. destruct (w !! h_name h) as [c|] eqn:Hc; simpl; [|done].
  destruct (match embeddings with Some _ => _ | None => _ end) as [es|]; simpl; [|done].
  case_bool_decide as Hlen; simpl; [|done].
  intros _ Hx. eexists. rewrite lookup_insert_eq. split; [done|]. simpl.
  apply foldl_put_keys. right. by rewrite new_rows_keys.
Qed.

Lemma store_ok_keys p (s : mem_state) es x :
  chroma_client (self s) = client p ->
  (store es s).1 = Ok tt ->
  x ∈ ids_of es ->
  exists c, backend (store es s).2 !! index_name (self s) = Some c /\
            x ∈ (c_rows c).*1.
Proof.
  intros Hcl. rewrite (store_run _ _ _ _ (mem_collection_ready p s Hcl)).
  rewrite Hcl. simpl.
  destruct (embedding_function (self s)) as [e|f]; simpl.
  - destruct (embed_text e _); simpl; [|done].
    apply (mem_add_ok_keys p (mkHandle _ _)).
  - apply (mem_add_ok_keys p (mkHandle _ _)).
Qed.

(** C10: two entries of a batch with the same payload, whatever their
    keys and metadata, are written under the same ID, the one derived
    from the payload, each with its own key and metadata; on the
    in-memory backend the collection then holds no two rows with that
    ID, and holds a row with it once [store] has returned. *)
Theorem payload_alone_determines_id p (s : mem_state) es i j e1 e2 :
  chroma_client (self s) = client p ->
  well_keyed (backend s) ->
  es !! i = Some e1 -> es !! j = Some e2 ->
  vector e1 = vector e2 ->
  (forall c ids embeddings docs metas,
     CollectionAdd c ids embeddings docs metas ∈ new_calls (store es) s ->
     ids !! i = Some (storage_id (vector e1)) /\
     ids !! j = Some (storage_id (vector e1)) /\
     metas !! i = Some {[ "key" := VStr (key e1); "metadata" := VDict (metadata e1) ]} /\
     metas !! j = Some {[ "key" := VStr (key e2); "metadata" := VDict (metadata e2) ]}) /\
  (forall c, backend (store es s).2 !! index_name (self s) = Some c ->
     NoDup (c_rows c).*1 /\
     ((store es s).1 = Ok tt -> storage_id (vector e1) ∈ (c_rows c).*1)).
Proof.
  intros Hcl Hw Hi Hj Heq. split.
  - intros c ids embeddings docs metas (-> & _ & ->)%store_add_calls.
    unfold ids_of, metadatas_of. rewrite !list_lookup_fmap, Hi, Hj. simpl.
    by rewrite Heq.
  - intros c Hc. split.
    + by eapply (store_well_keyed p s es Hcl Hw).
    + intros Hok.
      destruct (store_ok_keys p s es (storage_id (vector e1)) Hcl Hok) as (c' & Hc' & Hin).
      * unfold ids_of. apply list_elem_of_lookup. exists i.
        by rewrite list_lookup_fmap, Hi.
      * by simplify_eq.
Qed.

End MemoryFacts.

(** ** Runs on the in-memory backend *)

Import MemoryBackend Scenario.

Lemma well_keyed_empty : well_keyed ∅.
Proof. intros name c H. by rewrite lookup_empty in H. Qed.

Lemma empty_store_answers max_d :
  answers_find_similar (constructed Skip (AnEmbeddings toy_embeddings) max_d)
    "apple" empty_answer.
Proof.
  exists documents_handle,
    {[ "documents" := mkCollection {[ "hnsw:space" := "l2" ]} [] ]},
    {[ "documents" := mkCollection {[ "hnsw:space" := "l2" ]} [] ]}.
  split; [reflexivity|].
  exists [toy_vector "apple"]. split; reflexivity.
Qed.

Lemma empty_native_store_answers :
  answers_find_similar (constructed Skip (AChromaFunction toy_function) None)
    "apple" empty_answer.
Proof.
  exists (mkHandle "documents" (Some toy_function)),
    {[ "documents" := mkCollection {[ "hnsw:space" := "l2" ]} [] ]},
    {[ "documents" := mkCollection {[ "hnsw:space" := "l2" ]} [] ]}.
  split; reflexivity.
Qed.

(** A store on an empty collection: [find_similar] raises, with a
    threshold and without. *)
Lemma find_similar_of_empty_answer_witness :
  (find_similar "apple" (constructed Skip (AnEmbeddings toy_embeddings) None)).1
  = Raised IndexError /\
  (find_similar "apple" (constructed Skip (AnEmbeddings toy_embeddings) (Some 0.5%float))).1
  = Raised IndexError /\
  (find_similar "apple" (constructed Skip (AChromaFunction toy_function) None)).1
  = Raised IndexError.
Proof.
  split; [|split].
  - exact (find_similar_of_empty_answer _ _ _
             (empty_store_answers None) eq_refl eq_refl).
  - exact (find_similar_of_empty_answer _ _ _
             (empty_store_answers (Some 0.5%float)) eq_refl eq_refl).
  - exact (find_similar_of_empty_answer _ _ _
             empty_native_store_answers eq_refl eq_refl).
Defined.

Lemma fruit_answers_retrieve :
  answers_retrieve (fruit_store None) (toy_vector "apple") 5
    (fruit_answer (toy_vector "apple") 5).
Proof.
  exists documents_handle, (backend (fruit_store None)), (backend (fruit_store None)).
  split; vm_compute; reflexivity.
Qed.

Lemma fruit_answers_find_similar max_d text :
  answers_find_similar (fruit_store max_d) text (fruit_answer (toy_vector text) 1).
Proof.
  exists documents_handle, (backend (fruit_store None)), (backend (fruit_store None)).
  split; [vm_compute; reflexivity|].
  exists [toy_vector text]. split; [reflexivity|].
  vm_compute. reflexivity.
Qed.

Lemma fruit_answer_to_apple :
  documents (fruit_answer (toy_vector "apple") 5) = [["apple"; "banana"]] /\
  metadatas (fruit_answer (toy_vector "apple") 5) =
    [[item_metadata (format_entry apple); item_metadata (format_entry banana)]] /\
  documents (fruit_answer (toy_vector "apple") 1) = [["apple"]] /\
  distances (fruit_answer (toy_vector "apple") 1) = [[0%float]].
Proof. repeat split; vm_compute; reflexivity. Qed.

Lemma fruit_answer_to_cherry :
  documents (fruit_answer (toy_vector "cherry") 1) = [["banana"]] /\
  distances (fruit_answer (toy_vector "cherry") 1) = [[1%float]].
Proof. repeat split; vm_compute; reflexivity. Qed.

(** Two rows are stored and five are asked for: the backend finds the
    two and [retrieve] returns one entry. *)
Lemma retrieve_reads_first_row_only_witness :
  documents (fruit_answer (toy_vector "apple") 5) = [["apple"; "banana"]] /\
  exists entries,
    (retrieve (toy_vector "apple") 5 (fruit_store None)).1 = Ok entries /\
    vector <$> entries = ["apple"].
Proof.
  split; [apply fruit_answer_to_apple|].
  destruct (retrieve_reads_first_row_only _ _ _ _ _ _ fruit_answers_retrieve
              (proj1 fruit_answer_to_apple) (proj1 (proj2 fruit_answer_to_apple)))
    as [_ H].
  exists [apple].
  assert ((retrieve (toy_vector "apple") 5 (fruit_store None)).1 = Ok [apple]) as Hr
    by (vm_compute; reflexivity).
  split; [exact Hr|].
  destruct (H [apple] Hr) as (doc0 & docs' & [= <- _] & Hv). exact Hv.
Defined.

(** The threshold of [find_similar]: a match at the distance 0 is
    returned, a match at the distance 1 is not when the threshold is
    0.5, and is when there is no threshold. *)
Lemma find_similar_acceptance_witness :
  (find_similar "apple" (fruit_store (Some 0.5%float))).1 = Ok (Some "apple") /\
  (find_similar "cherry" (fruit_store (Some 0.5%float))).1 = Ok None /\
  (find_similar "cherry" (fruit_store None)).1 = Ok (Some "banana").
Proof.
  split; [|split].
  - rewrite (find_similar_acceptance _ _ _ "apple" [] [] 0%float [] []
               (fruit_answers_find_similar (Some 0.5%float) "apple")
               (proj1 (proj2 (proj2 fruit_answer_to_apple)))
               (proj2 (proj2 (proj2 fruit_answer_to_apple)))).
    vm_compute. reflexivity.
  - rewrite (find_similar_acceptance _ _ _ "banana" [] [] 1%float [] []
               (fruit_answers_find_similar (Some 0.5%float) "cherry")
               (proj1 fruit_answer_to_cherry) (proj2 fruit_answer_to_cherry)).
    vm_compute. reflexivity.
  - rewrite (find_similar_acceptance _ _ _ "banana" [] [] 1%float [] []
               (fruit_answers_find_similar None "cherry")
               (proj1 fruit_answer_to_cherry) (proj2 fruit_answer_to_cherry)).
    vm_compute. reflexivity.
Defined.

Lemma constructed_ready p ef max_d :
  collection_ready (constructed p ef max_d)
    (mkHandle "documents" (native_function ef))
    {[ "documents" := mkCollection {[ "hnsw:space" := "l2" ]} [] ]}.
Proof. reflexivity. Qed.

(** The calls of [store] for the two fruits, with a provider and with an
    embedding function of the backend. *)
Lemma store_embeds_in_one_batched_call_witness :
  new_calls (store [apple; banana]) (constructed Skip (AnEmbeddings toy_embeddings) None) =
  [ GetOrCreateCollection "documents" {[ "hnsw:space" := "l2" ]} None;
    EmbedText ["apple"; "banana"];
    CollectionAdd documents_handle
      [ "3a7bd3e2360a3d29eea436fcfb7e44c735d117c42d1c1835420b6b9942dd4f1b";
        "b493d48364afe44d11c0165cf470a4164d1e2609911ef998be868d46ade3de4e" ]
      (Some [toy_vector "apple"; toy_vector "banana"])
      ["apple"; "banana"]
      [ {[ "key" := VStr "fruit/1"; "metadata" := VDict {[ "lang" := "en" ]} ]};
        {[ "key" := VStr "fruit/2"; "metadata" := VDict ∅ ]} ] ] /\
  new_calls (store [apple; banana]) (constructed Skip (AChromaFunction toy_function) None) =
  [ GetOrCreateCollection "documents" {[ "hnsw:space" := "l2" ]} (Some toy_function);
    CollectionAdd (mkHandle "documents" (Some toy_function))
      [ "3a7bd3e2360a3d29eea436fcfb7e44c735d117c42d1c1835420b6b9942dd4f1b";
        "b493d48364afe44d11c0165cf470a4164d1e2609911ef998be868d46ade3de4e" ]
      None
      ["apple"; "banana"]
      [ {[ "key" := VStr "fruit/1"; "metadata" := VDict {[ "lang" := "en" ]} ]};
        {[ "key" := VStr "fruit/2"; "metadata" := VDict ∅ ]} ] ].
Proof.
  split.
  - rewrite (store_embeds_in_one_batched_call _ _ _ _
               (constructed_ready Skip (AnEmbeddings toy_embeddings) None)).
    vm_compute. reflexivity.
  - rewrite (store_embeds_in_one_batched_call _ _ _ _
               (constructed_ready Skip (AChromaFunction toy_function) None)).
    vm_compute. reflexivity.
Defined.

(** The first call of the three entry points on the store that holds
    the two fruits. *)
Lemma entry_points_ensure_collection_witness :
  (exists rest,
     new_calls (store [apple]) (fruit_store None) =
     GetOrCreateCollection "documents" {[ "hnsw:space" := "l2" ]} None :: rest) /\
  (exists rest,
     new_calls (retrieve (toy_vector "apple") 5) (fruit_store None) =
     GetOrCreateCollection "documents" {[ "hnsw:space" := "l2" ]} None :: rest) /\
  (exists rest,
     new_calls (find_similar "apple") (fruit_store None) =
     GetOrCreateCollection "documents" {[ "hnsw:space" := "l2" ]} None :: rest).
Proof.
  destruct (entry_points_ensure_collection (ret tt) "documents" (client Skip)
              (AnEmbeddings toy_embeddings) None l2 (blank Skip)
              (constructed Skip (AnEmbeddings toy_embeddings) None)
              (fruit_store None) eq_refl (preserves_store _ _))
    as (Hstore & Hretrieve & Hfind).
  split; [apply Hstore|]. split; [apply Hretrieve|apply Hfind].
Defined.

(** Two entries with the same payload and different keys, under a
    backend that overwrites: one row holds the ID. *)
Lemma payload_alone_determines_id_witness :
  storage_id (vector first_copy) = storage_id (vector second_copy) /\
  exists c,
    backend (store [first_copy; second_copy]
               (constructed Overwrite (AnEmbeddings toy_embeddings) None)).2
    !! "documents" = Some c /\
    NoDup (c_rows c).*1 /\
    storage_id "same text" ∈ (c_rows c).*1.
Proof.
  split; [reflexivity|].
  destruct (store_ensures Overwrite
              (constructed Overwrite (AnEmbeddings toy_embeddings) None)
              [first_copy; second_copy] eq_refl) as [c Hc].
  exists c. split; [exact Hc|].
  destruct (payload_alone_determines_id Overwrite
              (constructed Overwrite (AnEmbeddings toy_embeddings) None)
              [first_copy; second_copy] 0 1 first_copy second_copy
              eq_refl well_keyed_empty eq_refl eq_refl eq_refl)
    as [_ H].
  destruct (H c Hc) as [Hnodup Hin]. split; [exact Hnodup|].
  apply Hin. vm_compute. reflexivity.
Defined.


(** ** Digests of known texts

    [hashlib.sha256(t.encode("utf-8")).hexdigest()] for the empty text,
    the test vector of FIPS 180-4, a text that takes two blocks and a
    text of two UTF-8 bytes. *)

Example round_constants :
  Hashlib.K256 !! 0%nat = Some 0x428a2f98 /\ Hashlib.K256 !! 63%nat = Some 0xc67178f2 /\
  length Hashlib.K256 = 64%nat /\ Hashlib.H256 !! 0%nat = Some 0x6a09e667.
Proof. vm_compute. repeat split. Qed.

Example storage_id_empty :
  storage_id "" = "e3b0c44298fc1c149afbf4c8996fb92427ae41e4649b934ca495991b7852b855".
Proof. vm_compute. reflexivity. Qed.

Example storage_id_abc :
  storage_id "abc" = "ba7816bf8f01cfea414140de5dae2223b00361a396177a9cb410ff61f20015ad".
Proof. vm_compute. reflexivity. Qed.

Example storage_id_two_blocks :
  storage_id "aaaaaaaaaaaaaaaaaaaaaaaaaaaaaaaaaaaaaaaaaaaaaaaaaaaaaaaa"
  = "b35439a4ac6f0948b6d6f9e3c6af0f5f590ce20f1bde7090ef7970686ec6738a".
Proof. vm_compute. reflexivity. Qed.

Example storage_id_utf8 :
  storage_id "é" = "4a99557e4033c3539de2eb65472017cad5f9557f7a0625a09f1c3f6e2ba69c4c".
Proof. vm_compute. reflexivity. Qed.

Example storage_id_same_payload :
  ids_of [first_copy; second_copy] =
  [ "2e68a7bba11b90d1bae1daea2dd4951779cf45d5897c62539d01f44054bcb1e0";
    "2e68a7bba11b90d1bae1daea2dd4951779cf45d5897c62539d01f44054bcb1e0" ].
Proof. vm_compute. reflexivity. Qed.

(** ** An entry stored alone, end to end on the in-memory backend *)

Lemma mem_add_single p h i x d m md :
  mem_add p h [i] (Some [x]) [d] [m] {[ h_name h := mkCollection md [] ]}
  = (Ok tt, {[ h_name h := mkCollection md [(i, mkRow d m x)] ]}).
Proof.
  unfold mem_add. rewrite lookup_singleton_eq. simpl.
  by rewrite insert_singleton_eq.
Qed.

Lemma mem_query_single h i r md v k :
  0 < k ->
  mem_query h (Some [v]) None k {[ h_name h := mkCollection md [(i, r)] ]}
  = (Ok (mkQueryResult [[i]] [[row_document r]] [[row_metadata r]]
           [[distance (md !! "hnsw:space") v (row_embedding r)]]),
     {[ h_name h := mkCollection md [(i, r)] ]}).
Proof.
  intros Hk. unfold mem_query. rewrite lookup_singleton_eq. simpl.
  destruct (k <=? 0) eqn:E; [lia|].
  unfold nearest. simpl.
  destruct (Z.to_nat k) eqn:En; [lia|]. simpl. rewrite take_nil. reflexivity.
Qed.

(** X18: on the in-memory backend, whether it skips or overwrites, an
    entry stored alone in a new collection is the one that [retrieve]
    returns, whole, for every query vector and every positive [k],
    provided the embedder gives one embedding for the one text. *)
Lemma single_entry_round_trip p ef max_d e v k :
  0 < k ->
  match ef with
  | AnEmbeddings em => exists x, embed_text em [vector e] = Ok [x]
  | AChromaFunction f => exists x, ef_call f [vector e] = [x]
  end ->
  (retrieve v k (stocked p ef max_d [e])).1 = Ok [e].
Proof.
  intros Hk Hef.
  assert (exists x cs,
    stocked p ef max_d [e] =
    mkState (self (constructed p ef max_d))
      {[ "documents" := mkCollection {[ "hnsw:space" := "l2" ]}
           [(storage_id (vector e),
             mkRow (vector e) (item_metadata (format_entry e)) x)] ]} cs)
    as (x & cs & Hs).
  { unfold stocked.
    rewrite (store_run _ _ _ _ (constructed_ready p ef max_d)).
    destruct ef as [em|f]; simpl in *.
    - destruct Hef as [x Hx]. unfold documents_of. simpl. rewrite Hx.
      exists x. eexists.
      rewrite (mem_add_single p documents_handle). reflexivity.
    - destruct Hef as [x Hx]. exists x. eexists.
      unfold mem_add. simpl. rewrite lookup_singleton_eq. simpl.
      unfold documents_of. simpl. rewrite Hx. simpl.
      by rewrite insert_singleton_eq. }
  rewrite Hs.
  rewrite (retrieve_run _ v k
             (mkQueryResult [[storage_id (vector e)]] [[vector e]]
                [[item_metadata (format_entry e)]]
                [[distance (Some "l2"%string) v x]])
             [vector e] [item_metadata (format_entry e)]).
  - unfold entry_of_rows, format_entry, item_metadata.
    rewrite row_metadata_key, row_metadata_metadata. by destruct e.
  - exists (mkHandle "documents" (native_function ef)). eexists _, _. split.
    + unfold collection_ready. simpl. unfold mem_get_or_create.
      rewrite lookup_singleton_eq. reflexivity.
    + simpl. apply (mem_query_single (mkHandle "documents" _)). exact Hk.
  - reflexivity.
  - reflexivity.
Qed.

(** * Further properties of the methods *)

Section MoreFacts.

Context {W Collection : Type}.

Abbreviation M := (M W Collection).
Abbreviation state := (state W Collection).
Abbreviation call := (call Collection).

(** ** The methods, call by call *)

Lemma _return_best_match_state (s : state) qr : (_return_best_match qr s).2 = s.
Proof.
  unfold _return_best_match, mbind, M_bind, bind, attr, index0, ret, raise. simpl.
  destruct (max_distance (self s)) as [m|]; simpl.
  - destruct (distances qr) as [|[|d ds] dss]; simpl; try reflexivity.
    destruct (PrimFloat.leb d m); simpl; [|reflexivity].
    by destruct (documents qr) as [|[|doc docs] dss'].
  - by destruct (documents qr) as [|[|doc docs] dss'].
Qed.

Lemma build_entry_run docs metas (s : state) :
  (meta0 ← index0 metas;
   doc0 ← index0 docs;
   new_VectorDBEntry (meta0 !! "key") doc0 (meta0 !! "metadata")) s
  = (entry_of_rows docs metas, s).
Proof.
  unfold mbind, M_bind, bind, entry_of_rows, index0, new_VectorDBEntry, ret, raise.
  destruct metas as [|meta0 metas]; [reflexivity|].
  destruct docs as [|doc0 docs]; [reflexivity|]. simpl.
  destruct (meta0 !! "key") as [[?|?]|]; try reflexivity.
  destruct (meta0 !! "metadata") as [[?|?]|]; reflexivity.
Qed.

Lemma for_each_pure {A B} (f : A -> M B) (g : A -> outcome B)
    (h : list A -> outcome (list B)) :
  (forall x s, f x s = (g x, s)) ->
  h [] = Ok [] ->
  (forall x l,
     h (x :: l) =
     match g x with
     | Raised e => Raised e
     | Ok y => match h l with Ok ys => Ok (y :: ys) | Raised e => Raised e end
     end) ->
  forall l s, for_each f l s = (h l, s).
Proof.
  intros Hf Hnil Hcons l. induction l as [|x l IH]; intros s; simpl.
  - by rewrite Hnil.
  - unfold mbind, M_bind, bind. rewrite Hf, Hcons.
    destruct (g x); [|reflexivity]. rewrite IH. by destruct (h l).
Qed.

Lemma for_each_entries (rows : list (list string * list (gmap string value)))
    (s : state) :
  for_each
    (fun '(doc, meta) =>
       meta0 ← index0 meta;
       doc0 ← index0 doc;
       new_VectorDBEntry (meta0 !! "key") doc0 (meta0 !! "metadata"))
    rows s
  = (entries_of_rows rows, s).
Proof.
  apply (for_each_pure _ (fun dm => entry_of_rows dm.1 dm.2)).
  - intros [docs metas] s'. apply build_entry_run.
  - reflexivity.
  - by intros [docs metas] l.
Qed.

(** [retrieve] after the collection has been returned. *)
Lemma retrieve_ready (s : state) v k c w :
  collection_ready s c w ->
  retrieve v k s =
  let q := collection_query (chroma_client (self s)) c (Some [v]) None k w in
  (match q.1 with
   | Ok qr => entries_of_rows (zip (documents qr) (metadatas qr))
   | Raised x => Raised x
   end,
   mkState (self s) q.2
     (calls s ++ [ensure_call (self s); CollectionQuery c (Some [v]) None k])).
Proof.
  unfold collection_ready. intros Hc.
  unfold retrieve, mbind, M_bind, bind.
  rewrite _get_chroma_collection_run, Hc. simpl.
  unfold invoke. simpl.
  destruct (collection_query _ _ _ _ _ _) as [[qr|x] w']; simpl.
  - rewrite for_each_entries. by rewrite <- app_assoc.
  - by rewrite <- app_assoc.
Qed.

(** An entry point when the backend refuses the collection. *)
Lemma refused_collection {A} (k : Collection -> M A) (s : state) x w :
  get_or_create_collection (chroma_client (self s)) (index_name (self s))
    (_metadata (self s)) (native_function (embedding_function (self s)))
    (backend s) = (Raised x, w) ->
  (_get_chroma_collection ≫= k) s =
  (Raised x, mkState (self s) w (calls s ++ [ensure_call (self s)])).
Proof.
  intros Hc. unfold mbind, M_bind, bind.
  by rewrite _get_chroma_collection_run, Hc.
Qed.

(** [find_similar] after the collection has been returned. *)
Lemma find_similar_ready (s : state) text c w :
  collection_ready s c w ->
  find_similar text s =
  match embedding_function (self s) with
  | AnEmbeddings e =>
      match embed_text e [text] with
      | Ok embedding =>
          let q := collection_query (chroma_client (self s)) c (Some embedding) None 1 w in
          let s' := mkState (self s) q.2
                      (calls s ++ [ensure_call (self s); EmbedText [text];
                                   CollectionQuery c (Some embedding) None 1]) in
          match q.1 with
          | Ok qr => ((_return_best_match qr s').1, s')
          | Raised x => (Raised x, s')
          end
      | Raised x =>
          (Raised x, mkState (self s) w
                       (calls s ++ [ensure_call (self s); EmbedText [text]]))
      end
  | AChromaFunction _ =>
      let q := collection_query (chroma_client (self s)) c None (Some [text]) 1 w in
      let s' := mkState (self s) q.2
                  (calls s ++ [ensure_call (self s);
                               CollectionQuery c None (Some [text]) 1]) in
      match q.1 with
      | Ok qr => ((_return_best_match qr s').1, s')
      | Raised x => (Raised x, s')
      end
  end.
Proof.
  unfold collection_ready. intros Hc.
  unfold find_similar, mbind, M_bind, bind.
  rewrite _get_chroma_collection_run, Hc. simpl.
  destruct (embedding_function (self s)) as [e|f]; simpl.
  - unfold invoke_embed_text, invoke. simpl.
    destruct (embed_text e [text]) as [embedding|x]; simpl.
    + destruct (collection_query _ _ _ _ _ _) as [[qr|x] w']; simpl;
        rewrite <- !app_assoc; simpl; [|reflexivity].
      rewrite (surjective_pairing (_return_best_match qr _)).
      by rewrite _return_best_match_state.
    + by rewrite <- !app_assoc.
  - unfold invoke. simpl.
    destruct (collection_query _ _ _ _ _ _) as [[qr|x] w']; simpl;
      rewrite <- !app_assoc; simpl; [|reflexivity].
    rewrite (surjective_pairing (_return_best_match qr _)).
    by rewrite _return_best_match_state.
Qed.

Lemma new_calls_of_run {A} (m : M A) (s : state) r o w l :
  m s = (r, mkState o w (calls s ++ l)) -> new_calls m s = l.
Proof. intros H. unfold new_calls. rewrite H. simpl. apply drop_app_length. Qed.

(** ** Failures of the collaborators *)

(** X1: when the backend fails to return the collection, each of
    [store], [retrieve] and [find_similar] raises the exception of the
    backend, unchanged, having made that one call and no other: nothing
    is embedded, added or queried. *)
Theorem refused_collection_is_propagated (s : state) x w :
  get_or_create_collection (chroma_client (self s)) (index_name (self s))
    (_metadata (self s)) (native_function (embedding_function (self s)))
    (backend s) = (Raised x, w) ->
  (forall es,
     store es s = (Raised x, mkState (self s) w (calls s ++ [ensure_call (self s)]))) /\
  (forall v k,
     retrieve v k s = (Raised x, mkState (self s) w (calls s ++ [ensure_call (self s)]))) /\
  (forall t,
     find_similar t s = (Raised x, mkState (self s) w (calls s ++ [ensure_call (self s)]))).
Proof.
  intros Hc. split; [|split]; intros.
  - exact (refused_collection _ s x w Hc).
  - exact (refused_collection _ s x w Hc).
  - exact (refused_collection _ s x w Hc).
Qed.

(** X2: when the [Embeddings] provider fails, [store] and
    [find_similar] raise its exception, unchanged, and stop: the backend
    is left as [get_or_create_collection] left it, with no [add] and no
    [query]. *)
Theorem provider_failure_is_propagated (s : state) e c w x :
  embedding_function (self s) = AnEmbeddings e ->
  collection_ready s c w ->
  (forall es,
     embed_text e (vector <$> es) = Raised x ->
     store es s =
     (Raised x,
      mkState (self s) w (calls s ++ [ensure_call (self s); EmbedText (vector <$> es)]))) /\
  (forall t,
     embed_text e [t] = Raised x ->
     find_similar t s =
     (Raised x,
      mkState (self s) w (calls s ++ [ensure_call (self s); EmbedText [t]]))).
Proof.
  intros He Hc. split.
  - intros es Hx. rewrite (store_run _ _ _ _ Hc), He.
    unfold documents_of. by rewrite Hx.
  - intros t Hx. rewrite (find_similar_ready _ _ _ _ Hc), He. by rewrite Hx.
Qed.

(** X3: once the collection is returned and the texts are embedded,
    [store] returns what the [add] of the backend returns, [None] or its
    exception, and leaves the backend as [add] left it: it catches
    nothing and checks nothing itself, not even the number of the
    embeddings. *)
Theorem store_returns_what_add_returns (s : state) es c w :
  collection_ready s c w ->
  match embedding_function (self s) with
  | AnEmbeddings e =>
      forall embeddings,
        embed_text e (vector <$> es) = Ok embeddings ->
        (store es s).1 =
        (collection_add (chroma_client (self s)) c (ids_of es) (Some embeddings)
           (vector <$> es) (metadatas_of es) w).1 /\
        backend (store es s).2 =
        (collection_add (chroma_client (self s)) c (ids_of es) (Some embeddings)
           (vector <$> es) (metadatas_of es) w).2
  | AChromaFunction _ =>
      (store es s).1 =
      (collection_add (chroma_client (self s)) c (ids_of es) None
         (vector <$> es) (metadatas_of es) w).1 /\
      backend (store es s).2 =
      (collection_add (chroma_client (self s)) c (ids_of es) None
         (vector <$> es) (metadatas_of es) w).2
  end.
Proof.
  intros Hc. rewrite (store_run _ _ _ _ Hc). unfold documents_of.
  destruct (embedding_function (self s)) as [e|f]; [|done].
  intros embeddings ->. done.
Qed.

(** X4: when the query of the backend fails, [retrieve] and
    [find_similar] raise its exception, unchanged. *)
Theorem query_failure_is_propagated (s : state) c w x :
  collection_ready s c w ->
  (forall v k w',
     collection_query (chroma_client (self s)) c (Some [v]) None k w = (Raised x, w') ->
     (retrieve v k s).1 = Raised x) /\
  (forall t,
     match embedding_function (self s) with
     | AnEmbeddings e =>
         forall embedding w',
           embed_text e [t] = Ok embedding ->
           collection_query (chroma_client (self s)) c (Some embedding) None 1 w
           = (Raised x, w') ->
           (find_similar t s).1 = Raised x
     | AChromaFunction _ =>
         forall w',
           collection_query (chroma_client (self s)) c None (Some [t]) 1 w
           = (Raised x, w') ->
           (find_similar t s).1 = Raised x
     end).
Proof.
  intros Hc. split.
  - intros v k w' Hq. rewrite (retrieve_ready _ _ _ _ _ Hc). simpl. by rewrite Hq.
  - intros t. rewrite (find_similar_ready _ _ _ _ Hc).
    destruct (embedding_function (self s)) as [e|f].
    + intros embedding w' -> Hq. simpl. by rewrite Hq.
    + intros w' Hq. simpl. by rewrite Hq.
Qed.

(** ** The calls of [find_similar] and [retrieve] *)

(** X5: once the collection is returned, [find_similar] asks the
    backend for exactly one neighbour.  With an [Embeddings] provider it
    first embeds the text, alone in a batch of one, and queries by that
    embedding; with an embedding function of the backend it calls no
    provider and queries by the text itself. *)
Theorem find_similar_asks_for_one_neighbour (s : state) text c w :
  collection_ready s c w ->
  new_calls (find_similar text) s =
  match embedding_function (self s) with
  | AnEmbeddings e =>
      ensure_call (self s) :: EmbedText [text] ::
      match embed_text e [text] with
      | Ok embedding => [CollectionQuery c (Some embedding) None 1]
      | Raised _ => []
      end
  | AChromaFunction _ =>
      [ensure_call (self s); CollectionQuery c None (Some [text]) 1]
  end.
Proof.
  intros Hc. unfold new_calls. rewrite (find_similar_ready _ _ _ _ Hc).
  destruct (embedding_function (self s)) as [e|f]; simpl.
  - destruct (embed_text e [text]) as [embedding|x]; simpl.
    + destruct (collection_query _ _ _ _ _ _).1; simpl; by rewrite drop_app_length.
    + by rewrite drop_app_length.
  - destruct (collection_query _ _ _ _ _ _).1; simpl; by rewrite drop_app_length.
Qed.

(** X6: once the collection is returned, [retrieve] makes one call
    more, the query, with the vector of the caller as the only query
    embedding and with [k] as it was given, positive or not; it calls no
    provider, whatever the embedding function of the store. *)
Theorem retrieve_forwards_vector_and_k (s : state) v k c w :
  collection_ready s c w ->
  new_calls (retrieve v k) s =
  [ensure_call (self s); CollectionQuery c (Some [v]) None k].
Proof.
  intros Hc. apply (new_calls_of_run _ _ _ _ _ _ (retrieve_ready _ _ _ _ _ Hc)).
Qed.

Lemma new_calls_cases {A} (m : M A) (k : Collection -> M A) (s : state)
    (P : list call -> Prop) :
  m = (_get_chroma_collection ≫= k) ->
  P [ensure_call (self s)] ->
  (forall c w, collection_ready s c w -> P (new_calls m s)) ->
  P (new_calls m s).
Proof.
  intros -> Hrefused Hready.
  destruct (get_or_create_collection (chroma_client (self s)) (index_name (self s))
              (_metadata (self s)) (native_function (embedding_function (self s)))
              (backend s)) as [[c|x] w] eqn:Hc.
  - by apply (Hready c w).
  - by rewrite (new_calls_of_run _ _ _ _ _ _ (refused_collection k s x w Hc)).
Qed.

(** X7: in every state and whatever the collaborators answer,
    [retrieve] and [find_similar] never call [add], [retrieve] never
    calls the provider, and [store] never queries. *)
Theorem reads_never_add_and_store_never_queries (s : state) :
  (forall v k, Forall (fun c => is_add c = false /\ is_embed c = false)
                 (new_calls (retrieve v k) s)) /\
  (forall t, Forall (fun c => is_add c = false) (new_calls (find_similar t) s)) /\
  (forall es, Forall (fun c => is_query c = false) (new_calls (store es) s)).
Proof.
  split; [|split]; intros.
  - apply (new_calls_cases (retrieve v k) _ s (Forall _) eq_refl).
    + by repeat constructor.
    + intros c w Hc.
      rewrite (new_calls_of_run _ _ _ _ _ _ (retrieve_ready _ _ _ _ _ Hc)).
      by repeat constructor.
  - apply (new_calls_cases (find_similar t) _ s (Forall _) eq_refl).
    + by repeat constructor.
    + intros c w Hc. unfold new_calls.
      rewrite (find_similar_ready _ _ _ _ Hc).
      destruct (embedding_function (self s)) as [e|f]; simpl.
      * destruct (embed_text e [t]) as [embedding|x]; simpl.
        -- destruct (collection_query _ _ _ _ _ _).1; simpl;
             rewrite drop_app_length; by repeat constructor.
        -- rewrite drop_app_length. by repeat constructor.
      * destruct (collection_query _ _ _ _ _ _).1; simpl;
          rewrite drop_app_length; by repeat constructor.
  - apply (new_calls_cases (store es) _ s (Forall _) eq_refl).
    + by repeat constructor.
    + intros c w Hc. unfold new_calls. rewrite (store_run _ _ _ _ Hc).
      destruct (embedding_function (self s)) as [e|f]; simpl.
      * destruct (embed_text e _); simpl; rewrite drop_app_length;
          by repeat constructor.
      * rewrite drop_app_length. by repeat constructor.
Qed.

(** ** Which method reads the threshold *)

Lemma run_with_max_distance {A} (k : Collection -> M A) (s : state) md :
  (forall c s1 s2,
     backend s1 = backend s2 ->
     chroma_client (self s1) = chroma_client (self s2) ->
     embedding_function (self s1) = embedding_function (self s2) ->
     (k c s1).1 = (k c s2).1 /\ backend (k c s1).2 = backend (k c s2).2) ->
  let s' := mkState (set_max_distance md (self s)) (backend s) (calls s) in
  ((_get_chroma_collection ≫= k) s').1 = ((_get_chroma_collection ≫= k) s).1 /\
  backend ((_get_chroma_collection ≫= k) s').2 = backend ((_get_chroma_collection ≫= k) s).2.
Proof.
  intros Hk s'. unfold mbind, M_bind, bind.
  rewrite !_get_chroma_collection_run. simpl.
  destruct (get_or_create_collection _ _ _ _ _) as [[c|x] w]; simpl; [|done].
  by apply Hk.
Qed.

(** X8: the threshold [max_distance] is read by [find_similar] alone:
    with any other threshold in its place, [retrieve] and [store] have
    the same outcome and leave the backend in the same state. *)
Theorem retrieve_and_store_ignore_max_distance (s : state) md :
  let s' := mkState (set_max_distance md (self s)) (backend s) (calls s) in
  (forall v k,
     (retrieve v k s').1 = (retrieve v k s).1 /\
     backend (retrieve v k s').2 = backend (retrieve v k s).2) /\
  (forall es,
     (store es s').1 = (store es s).1 /\
     backend (store es s').2 = backend (store es s).2).
Proof.
  intros s'. split; intros.
  - apply (run_with_max_distance _ s md). intros c s1 s2 Hb Hcl _.
    unfold mbind, M_bind, bind, attr, invoke. simpl. rewrite Hb, Hcl.
    destruct (collection_query _ _ _ _ _ _) as [[qr|x] w']; simpl; [|done].
    by rewrite !for_each_entries.
  - apply (run_with_max_distance _ s md). intros c s1 s2 Hb Hcl Hef.
    unfold mbind, M_bind, bind, attr, invoke, invoke_embed_text. simpl.
    rewrite Hcl, Hef.
    destruct (embedding_function (self s2)) as [e|f]; simpl; rewrite Hb.
    + destruct (embed_text e _); simpl; [|done].
      by destruct (collection_add _ _ _ _ _ _ _).
    + by destruct (collection_add _ _ _ _ _ _ _).
Qed.

(** X9: [find_similar] reads no more of the answer than it needs.
    Without a threshold it does not read the distances: the first
    document is returned whatever they are, and even if there is none.
    With a threshold that the first distance exceeds it does not read
    the documents: it returns [None] whatever they are. *)
Theorem find_similar_reads_what_it_needs (s : state) text qr :
  answers_find_similar s text qr ->
  (max_distance (self s) = None ->
   forall doc docs dss,
     documents qr = (doc :: docs) :: dss ->
     (find_similar text s).1 = Ok (Some doc)) /\
  (forall m d ds dss,
     max_distance (self s) = Some m ->
     distances qr = (d :: ds) :: dss ->
     PrimFloat.leb d m = false ->
     (find_similar text s).1 = Ok None).
Proof.
  intros Ha. destruct (find_similar_run _ _ _ Ha) as (s' & Hs' & ->).
  unfold _return_best_match, mbind, M_bind, bind, attr, index0, ret. simpl.
  rewrite Hs'. split.
  - intros -> doc docs dss ->. reflexivity.
  - intros m d ds dss -> -> Hle. simpl. by rewrite Hle.
Qed.

Lemma is_nan_spec d : PrimFloat.is_nan d = true -> Prim2SF d = SpecFloat.S754_nan.
Proof.
  unfold PrimFloat.is_nan. intros H. apply negb_true_iff in H.
  rewrite FloatAxioms.eqb_spec in H. unfold SpecFloat.SFeqb, SpecFloat.SFcompare in H.
  destruct (Prim2SF d) as [sd|sd| |sd md ed]; try reflexivity.
  - discriminate.
  - by destruct sd.
  - destruct sd; rewrite Z.compare_refl, Pos.compare_cont_refl in H; discriminate.
Qed.

Lemma leb_nan_left d m : PrimFloat.is_nan d = true -> PrimFloat.leb d m = false.
Proof. intros H. rewrite FloatAxioms.leb_spec, (is_nan_spec _ H). reflexivity. Qed.

Lemma leb_nan_right d m : PrimFloat.is_nan m = true -> PrimFloat.leb d m = false.
Proof.
  intros H. rewrite FloatAxioms.leb_spec, (is_nan_spec _ H).
  by destruct (Prim2SF d) as [?|[]| |].
Qed.

(** X10: under a threshold, a match whose distance is not a number is
    never returned, and a threshold that is not a number lets no match
    through: [find_similar] returns [None]. *)
Theorem nan_is_not_within_threshold (s : state) text qr m d ds dss :
  answers_find_similar s text qr ->
  max_distance (self s) = Some m ->
  distances qr = (d :: ds) :: dss ->
  PrimFloat.is_nan d = true \/ PrimFloat.is_nan m = true ->
  (find_similar text s).1 = Ok None.
Proof.
  intros Ha Hm Hd Hnan. destruct (find_similar_run _ _ _ Ha) as (s' & Hs' & ->).
  unfold _return_best_match, mbind, M_bind, bind, attr, index0, ret. simpl.
  rewrite Hs', Hm, Hd. simpl.
  destruct Hnan as [H|H]; [rewrite (leb_nan_left _ _ H)|rewrite (leb_nan_right _ _ H)];
    reflexivity.
Qed.

(** ** What [retrieve] returns, what [store] writes *)

Lemma entries_of_rows_ok rows entries :
  entries_of_rows rows = Ok entries ->
  length entries = length rows /\
  forall i e, entries !! i = Some e ->
    exists docs metas meta0,
      rows !! i = Some (vector e :: docs, meta0 :: metas) /\
      meta0 !! "key" = Some (VStr (key e)) /\
      meta0 !! "metadata" = Some (VDict (metadata e)).
Proof.
  revert entries. induction rows as [|[docs metas] rows IH]; intros entries; simpl.
  - intros [= <-]. split; [done|]. intros i e H. by rewrite lookup_nil in H.
  - unfold entry_of_rows.
    destruct metas as [|meta0 metas]; [done|].
    destruct docs as [|doc0 docs]; [done|].
    destruct (meta0 !! "key") as [[k|?]|] eqn:Hk; try done.
    destruct (meta0 !! "metadata") as [[?|m]|] eqn:Hm; try done.
    destruct (entries_of_rows rows) as [es|]; [|done].
    intros [= <-]. destruct (IH es eq_refl) as [Hlen Hes]. split.
    + simpl. by rewrite Hlen.
    + intros [|i] e; simpl.
      * intros [= <-]. by exists docs, metas, meta0.
      * apply Hes.
Qed.

(** X11: when [retrieve] returns, it returns one entry for each query
    of the answer for which the backend gives both documents and
    metadata (the shorter of the two columns counts), and the entry of
    a query is read from the first of its rows: its payload is the
    first document, its key and metadata are the sub-fields ["key"] and
    ["metadata"] of the first metadata. *)
Theorem retrieve_builds_one_entry_for_each_query (s : state) v k qr entries :
  answers_retrieve s v k qr ->
  (retrieve v k s).1 = Ok entries ->
  length entries = (length (documents qr) `min` length (metadatas qr))%nat /\
  forall i e, entries !! i = Some e ->
    exists docs metas meta0,
      documents qr !! i = Some (vector e :: docs) /\
      metadatas qr !! i = Some (meta0 :: metas) /\
      meta0 !! "key" = Some (VStr (key e)) /\
      meta0 !! "metadata" = Some (VDict (metadata e)).
Proof.
  intros (c & w & w' & Hc & Hq). rewrite (retrieve_ready _ _ _ _ _ Hc). simpl.
  rewrite Hq. simpl. intros [Hlen Hes]%entries_of_rows_ok. split.
  - by rewrite Hlen, length_zip.
  - intros i e He. destruct (Hes i e He) as (docs & metas & meta0 & Hi & Hkey & Hmeta).
    apply lookup_zip_Some in Hi as [Hd Hm]. by exists docs, metas, meta0.
Qed.


Lemma next_operation_first_call (s1 s : state) :
  self s1 = self s ->
  (forall es, exists rest, new_calls (store es) s1 = ensure_call (self s) :: rest) /\
  (forall v k, exists rest, new_calls (retrieve v k) s1 = ensure_call (self s) :: rest) /\
  (forall t, exists rest, new_calls (find_similar t) s1 = ensure_call (self s) :: rest).
Proof. intros <-. apply first_call_of_entry_points. Qed.

(** X13: the operations of one store address one collection: after a
    [store], after a [retrieve] and after a [find_similar], whatever
    their outcome, the next operation, whichever of the three it is and
    whatever its arguments, starts with the same
    [get_or_create_collection] call, same name, same metadata and same
    embedding function. *)
Theorem operations_address_one_collection (s : state) es v k t :
  ((forall es', exists rest,
      new_calls (store es') (store es s).2 = ensure_call (self s) :: rest) /\
   (forall v' k', exists rest,
      new_calls (retrieve v' k') (store es s).2 = ensure_call (self s) :: rest) /\
   (forall t', exists rest,
      new_calls (find_similar t') (store es s).2 = ensure_call (self s) :: rest)) /\
  ((forall es', exists rest,
      new_calls (store es') (retrieve v k s).2 = ensure_call (self s) :: rest) /\
   (forall v' k', exists rest,
      new_calls (retrieve v' k') (retrieve v k s).2 = ensure_call (self s) :: rest) /\
   (forall t', exists rest,
      new_calls (find_similar t') (retrieve v k s).2 = ensure_call (self s) :: rest)) /\
  ((forall es', exists rest,
      new_calls (store es') (find_similar t s).2 = ensure_call (self s) :: rest) /\
   (forall v' k', exists rest,
      new_calls (retrieve v' k') (find_similar t s).2 = ensure_call (self s) :: rest) /\
   (forall t', exists rest,
      new_calls (find_similar t') (find_similar t s).2 = ensure_call (self s) :: rest)).
Proof.
  split; [|split].
  - apply next_operation_first_call, preserves_store.
  - apply next_operation_first_call, preserves_retrieve.
  - apply next_operation_first_call, preserves_find_similar.
Qed.

(** ** [__repr__] *)

Lemma append_cons x (a c : string) :
  (String x a ++ c)%string = String x (a ++ c)%string.
Proof. reflexivity. Qed.

Lemma length_append (a c : string) :
  String.length (a ++ c)%string = (String.length a + String.length c)%nat.
Proof.
  induction a as [|x a IH]; [reflexivity|].
  rewrite append_cons. simpl. by rewrite IH.
Qed.

Lemma append_suffix_inj (a b c : string) : (a ++ c = b ++ c)%string -> a = b.
Proof.
  intros H. assert (String.length a = String.length b) as Hlen.
  { apply (f_equal String.length) in H. rewrite !length_append in H. lia. }
  revert b H Hlen. induction a as [|x a IH]; intros [|y b] H Hlen;
    try discriminate; [reflexivity|].
  rewrite !append_cons in H. injection H as -> H. f_equal.
  apply IH; [done|]. simpl in Hlen. lia.
Qed.

(** X14: [__repr__] touches nothing, and the text it returns tells the
    index name and nothing else of the store: two stores have the same
    text exactly when they have the same index name. *)
Theorem repr_tells_the_index_name (s1 s2 : state) :
  (__repr__ s1).2 = s1 /\
  ((__repr__ s1).1 = (__repr__ s2).1 <-> index_name (self s1) = index_name (self s2)).
Proof.
  split; [reflexivity|]. unfold __repr__, mbind, M_bind, bind, attr, ret. simpl. split.
  - intros [= H]. apply String.app_inj in H. by apply append_suffix_inj in H.
  - by intros ->.
Qed.

(** ** The two ways of reading agree *)

(** X16: [find_similar] is [retrieve] for one neighbour, after the
    text has been embedded: on a store without threshold, when the
    provider embeds [text] as [v] and [retrieve v 1] returns an entry,
    [find_similar text] returns the payload of that entry; both put the
    same query to the backend. *)
Theorem find_similar_agrees_with_retrieve (s : state) e text v entry c w :
  collection_ready s c w ->
  embedding_function (self s) = AnEmbeddings e ->
  embed_text e [text] = Ok [v] ->
  max_distance (self s) = None ->
  (retrieve v 1 s).1 = Ok [entry] ->
  (find_similar text s).1 = Ok (Some (vector entry)).
Proof.
  intros Hc He Hv Hmax. rewrite (retrieve_ready _ _ _ _ _ Hc).
  rewrite (find_similar_ready _ _ _ _ Hc), He, Hv. simpl.
  destruct (collection_query _ _ _ _ _ _).1 as [qr|x]; [|done].
  intros [_ Hes]%entries_of_rows_ok.
  destruct (Hes 0%nat entry eq_refl) as (docs & metas & meta0 & Hi & _).
  apply lookup_zip_Some in Hi as [Hd _].
  unfold _return_best_match, mbind, M_bind, bind, attr, index0, ret. simpl.
  rewrite Hmax. simpl.
  destruct (documents qr) as [|row rows]; [done|]. by injection Hd as ->.
Qed.

(** X17: with an [Embeddings] provider nothing is left to the backend
    to embed: in every state and whatever the collaborators answer, no
    embedding function is handed to [get_or_create_collection], every
    [add] carries embeddings and every query is by embedding, never by
    text. *)
Theorem provider_leaves_no_embedding_to_the_backend (s : state) e :
  embedding_function (self s) = AnEmbeddings e ->
  let explicit (c : call) :=
    match c with
    | GetOrCreateCollection _ _ ef => ef = None
    | EmbedText _ => True
    | CollectionAdd _ _ embeddings _ _ => embeddings <> None
    | CollectionQuery _ query_embeddings query_texts _ =>
        query_embeddings <> None /\ query_texts = None
    end in
  (forall es, Forall explicit (new_calls (store es) s)) /\
  (forall v k, Forall explicit (new_calls (retrieve v k) s)) /\
  (forall t, Forall explicit (new_calls (find_similar t) s)).
Proof.
  intros He explicit.
  assert (explicit (ensure_call (self s))) as Hensure.
  { unfold explicit, ensure_call. by rewrite He. }
  split; [|split]; intros.
  - apply (new_calls_cases (store es) _ s (Forall _) eq_refl).
    + by repeat constructor.
    + intros c w Hc. unfold new_calls. rewrite (store_run _ _ _ _ Hc), He.
      destruct (embed_text e _); simpl; rewrite drop_app_length;
        by repeat constructor.
  - apply (new_calls_cases (retrieve v k) _ s (Forall _) eq_refl).
    + by repeat constructor.
    + intros c w Hc.
      rewrite (new_calls_of_run _ _ _ _ _ _ (retrieve_ready _ _ _ _ _ Hc)).
      by repeat constructor.
  - apply (new_calls_cases (find_similar t) _ s (Forall _) eq_refl).
    + by repeat constructor.
    + intros c w Hc. unfold new_calls. rewrite (find_similar_ready _ _ _ _ Hc), He.
      destruct (embed_text e [t]) as [embedding|x]; simpl.
      * destruct (collection_query _ _ _ _ _ _).1; simpl;
          rewrite drop_app_length; by repeat constructor.
      * rewrite drop_app_length. by repeat constructor.
Qed.

End MoreFacts.

(** ** The form of a storage ID *)

Lemma be_bytes_length n x : length (Hashlib.be_bytes n x) = n.
Proof. induction n as [|n IH]; simpl; [done|]. by rewrite IH. Qed.

Lemma be_bytes_range n x : Forall (fun b => 0 <= b < 256) (Hashlib.be_bytes n x).
Proof.
  induction n as [|n IH]; simpl; constructor; [|done].
  apply Z.mod_pos_bound. lia.
Qed.

Lemma compress_length h block :
  length h = 8%nat -> length (Hashlib.compress h block) = 8%nat.
Proof.
  intros Hh. unfold Hashlib.compress. cbv zeta.
  rewrite length_zip_with, Hh. reflexivity.
Qed.

Lemma foldl_compress_length blocks h :
  length h = 8%nat -> length (foldl Hashlib.compress h blocks) = 8%nat.
Proof.
  revert h. induction blocks as [|b blocks IH]; intros h Hh; simpl; [done|].
  apply IH. by apply compress_length.
Qed.

Lemma bind_be_bytes_length (l : list Z) :
  length (l ≫= Hashlib.be_bytes 4) = (4 * length l)%nat.
Proof.
  induction l as [|x l IH]; [done|].
  rewrite bind_cons, length_app, be_bytes_length, IH. simpl. lia.
Qed.

Lemma sha256_length msg : length (Hashlib.sha256 msg) = 32%nat.
Proof.
  unfold Hashlib.sha256. cbv zeta.
  rewrite bind_be_bytes_length, foldl_compress_length; [done|].
  vm_compute. reflexivity.
Qed.

Lemma sha256_range msg : Forall (fun b => 0 <= b < 256) (Hashlib.sha256 msg).
Proof.
  unfold Hashlib.sha256. cbv zeta. apply Forall_bind, Forall_forall.
  intros x _. apply be_bytes_range.
Qed.

Lemma hexdigest_length digest :
  String.length (Hashlib.hexdigest digest) = (2 * length digest)%nat.
Proof. induction digest as [|b digest IH]; simpl; [done|]. rewrite IH. lia. Qed.

Lemma hex_digit_is_hex d : 0 <= d < 16 -> is_hex_digit (Hashlib.hex_digit d) = true.
Proof.
  intros Hd.
  assert (d = 0 \/ d = 1 \/ d = 2 \/ d = 3 \/ d = 4 \/ d = 5 \/ d = 6 \/ d = 7 \/
          d = 8 \/ d = 9 \/ d = 10 \/ d = 11 \/ d = 12 \/ d = 13 \/ d = 14 \/ d = 15)
    as H by lia.
  decompose [or] H; subst; reflexivity.
Qed.

Lemma hexdigest_is_hex digest :
  Forall (fun b => 0 <= b < 256) digest ->
  all_chars is_hex_digit (Hashlib.hexdigest digest) = true.
Proof.
  induction 1 as [|b digest Hb _ IH]; simpl; [done|].
  rewrite !hex_digit_is_hex, IH; [done| |].
  - apply Z.mod_pos_bound. lia.
  - split; [apply Z.div_pos; lia|]. apply Z.div_lt_upper_bound; lia.
Qed.

(** X15: the ID that [store] derives is, for every payload, the empty
    one included, a text of 64 characters, each a decimal digit or a
    letter from [a] to [f]. *)
Theorem storage_id_is_64_hex_digits payload :
  String.length (storage_id payload) = 64%nat /\
  all_chars is_hex_digit (storage_id payload) = true.
Proof.
  unfold storage_id. split.
  - by rewrite hexdigest_length, sha256_length.
  - apply hexdigest_is_hex, sha256_range.
Qed.

(** ** Further runs on the in-memory backend *)

Abbreviation new_collection :=
  ({[ "documents" := mkCollection {[ "hnsw:space" := "l2" ]} [] ]}
     : gmap string collection).

(** An offline backend: the three entry points raise its exception. *)
Lemma refused_collection_is_propagated_witness :
  (store [apple] (store_over offline_client (AnEmbeddings toy_embeddings) None l2)).1
  = Raised (BackendError "backend offline") /\
  (retrieve (toy_vector "apple") 5
     (store_over offline_client (AnEmbeddings toy_embeddings) None l2)).1
  = Raised (BackendError "backend offline") /\
  (find_similar "apple" (store_over offline_client (AnEmbeddings toy_embeddings) None l2)).1
  = Raised (BackendError "backend offline").
Proof.
  destruct (refused_collection_is_propagated
              (store_over offline_client (AnEmbeddings toy_embeddings) None l2)
              (BackendError "backend offline") ∅ eq_refl)
    as (Hs & Hr & Hf).
  rewrite Hs, Hr, Hf. repeat split.
Defined.

Lemma over_ready cl ef max_d :
  get_or_create_collection cl = mem_get_or_create ->
  collection_ready (store_over cl ef max_d l2)
    (mkHandle "documents" (native_function ef)) new_collection.
Proof. intros H. unfold collection_ready. simpl. rewrite H. reflexivity. Qed.

(** A provider that fails: [store] and [find_similar] raise its
    exception and the collection, created, stays empty. *)
Lemma provider_failure_is_propagated_witness :
  store [apple] (store_over (client Skip) (AnEmbeddings failing_embeddings) None l2)
  = (Raised (BackendError "provider unavailable"),
     mkState (self (store_over (client Skip) (AnEmbeddings failing_embeddings) None l2))
       new_collection
       [GetOrCreateCollection "documents" {[ "hnsw:space" := "l2" ]} None;
        EmbedText ["apple"]]) /\
  (find_similar "apple"
     (store_over (client Skip) (AnEmbeddings failing_embeddings) None l2)).1
  = Raised (BackendError "provider unavailable").
Proof.
  destruct (provider_failure_is_propagated
              (store_over (client Skip) (AnEmbeddings failing_embeddings) None l2)
              failing_embeddings documents_handle new_collection
              (BackendError "provider unavailable") eq_refl
              (over_ready (client Skip) (AnEmbeddings failing_embeddings) None eq_refl))
    as [Hs Hf].
  split.
  - exact (Hs [apple] eq_refl).
  - rewrite (Hf "apple" eq_refl). reflexivity.
Defined.

(** A provider that returns no embedding for one text: [store] hands
    the empty list to [add], and raises what [add] raises. *)
Lemma store_returns_what_add_returns_witness :
  (store [apple] (store_over (client Skip) (AnEmbeddings short_embeddings) None l2)).1
  = Raised (BackendError "lengths of the columns differ") /\
  (store [apple] (store_over (client Skip) (AChromaFunction toy_function) None l2)).1
  = Ok tt.
Proof.
  split.
  - destruct (store_returns_what_add_returns
                (store_over (client Skip) (AnEmbeddings short_embeddings) None l2)
                [apple] documents_handle new_collection
                (over_ready (client Skip) (AnEmbeddings short_embeddings) None eq_refl)
                [] eq_refl) as [H _].
    rewrite H. vm_compute. reflexivity.
  - destruct (store_returns_what_add_returns
                (store_over (client Skip) (AChromaFunction toy_function) None l2)
                [apple] (mkHandle "documents" (Some toy_function)) new_collection
                (over_ready (client Skip) (AChromaFunction toy_function) None eq_refl))
      as [H _].
    rewrite H. vm_compute. reflexivity.
Defined.

(** A backend whose queries fail. *)
Lemma query_failure_is_propagated_witness :
  (retrieve (toy_vector "apple") 5
     (store_over deaf_client (AnEmbeddings toy_embeddings) None l2)).1
  = Raised (BackendError "query failed") /\
  (find_similar "apple" (store_over deaf_client (AChromaFunction toy_function) None l2)).1
  = Raised (BackendError "query failed").
Proof.
  split.
  - destruct (query_failure_is_propagated
                (store_over deaf_client (AnEmbeddings toy_embeddings) None l2)
                documents_handle new_collection (BackendError "query failed")
                (over_ready deaf_client (AnEmbeddings toy_embeddings) None eq_refl))
      as [H _].
    exact (H (toy_vector "apple") 5 new_collection eq_refl).
  - destruct (query_failure_is_propagated
                (store_over deaf_client (AChromaFunction toy_function) None l2)
                (mkHandle "documents" (Some toy_function)) new_collection
                (BackendError "query failed")
                (over_ready deaf_client (AChromaFunction toy_function) None eq_refl))
      as [_ H].
    exact (H "apple" new_collection eq_refl).
Defined.

(** The calls of [find_similar], with a provider and without. *)
Lemma find_similar_asks_for_one_neighbour_witness :
  new_calls (find_similar "apple")
    (store_over (client Skip) (AnEmbeddings toy_embeddings) None l2) =
  [ GetOrCreateCollection "documents" {[ "hnsw:space" := "l2" ]} None;
    EmbedText ["apple"];
    CollectionQuery documents_handle (Some [toy_vector "apple"]) None 1 ] /\
  new_calls (find_similar "apple")
    (store_over (client Skip) (AChromaFunction toy_function) None l2) =
  [ GetOrCreateCollection "documents" {[ "hnsw:space" := "l2" ]} (Some toy_function);
    CollectionQuery (mkHandle "documents" (Some toy_function)) None (Some ["apple"]) 1 ].
Proof.
  split.
  - exact (find_similar_asks_for_one_neighbour _ "apple" _ _
             (over_ready (client Skip) (AnEmbeddings toy_embeddings) None eq_refl)).
  - exact (find_similar_asks_for_one_neighbour _ "apple" _ _
             (over_ready (client Skip) (AChromaFunction toy_function) None eq_refl)).
Defined.

(** [retrieve] with a negative [k], on a store with a provider. *)
Lemma retrieve_forwards_vector_and_k_witness :
  new_calls (retrieve (toy_vector "apple") (-3))
    (store_over (client Skip) (AnEmbeddings toy_embeddings) None l2) =
  [ GetOrCreateCollection "documents" {[ "hnsw:space" := "l2" ]} None;
    CollectionQuery documents_handle (Some [toy_vector "apple"]) None (-3) ].
Proof.
  exact (retrieve_forwards_vector_and_k _ (toy_vector "apple") (-3) _ _
           (over_ready (client Skip) (AnEmbeddings toy_embeddings) None eq_refl)).
Defined.

(** Without a threshold the nearest text is returned; with the
    threshold 0.5 a text at the distance 1 is not. *)
Lemma find_similar_reads_what_it_needs_witness :
  (find_similar "cherry" (fruit_store None)).1 = Ok (Some "banana") /\
  (find_similar "cherry" (fruit_store (Some 0.5%float))).1 = Ok None.
Proof.
  split.
  - destruct (find_similar_reads_what_it_needs _ _ _
                (fruit_answers_find_similar None "cherry")) as [H _].
    exact (H eq_refl "banana" [] [] (proj1 fruit_answer_to_cherry)).
  - destruct (find_similar_reads_what_it_needs _ _ _
                (fruit_answers_find_similar (Some 0.5%float) "cherry")) as [_ H].
    exact (H 0.5%float 1%float [] [] eq_refl (proj2 fruit_answer_to_cherry) eq_refl).
Defined.

(** A collection under the cosine distance that holds the entry with
    the empty payload, whose embedding is the zero vector. *)
Abbreviation blank_store max_d :=
  (store [blank_entry]
     (store_over (client Skip) (AnEmbeddings toy_embeddings) max_d cosine)).2.

Abbreviation blank_answer :=
  (answer_of (mem_query documents_handle (Some [toy_vector ""]) None 1
                (backend (blank_store None)))).

Lemma blank_answers max_d :
  answers_find_similar (blank_store max_d) "" blank_answer.
Proof.
  exists documents_handle, (backend (blank_store None)), (backend (blank_store None)).
  split; [vm_compute; reflexivity|].
  exists [toy_vector ""]. split; vm_compute; reflexivity.
Qed.

Lemma blank_answer_distances : distances blank_answer = [[nan]].
Proof. vm_compute. reflexivity. Qed.

(** The cosine distance from the zero vector is not a number: under
    the threshold 0.5 the stored text is not found. *)
Lemma nan_is_not_within_threshold_witness :
  (find_similar "" (blank_store (Some 0.5%float))).1 = Ok None.
Proof.
  exact (nan_is_not_within_threshold _ _ _ 0.5%float nan [] []
           (blank_answers (Some 0.5%float)) eq_refl blank_answer_distances
           (or_introl eq_refl)).
Defined.

Lemma fruit_retrieved :
  (retrieve (toy_vector "apple") 5 (fruit_store None)).1 = Ok [apple].
Proof. vm_compute. reflexivity. Qed.

(** One query, two rows found, one entry returned, read from the first
    row. *)
Lemma retrieve_builds_one_entry_for_each_query_witness :
  length [apple] =
    (length (documents (fruit_answer (toy_vector "apple") 5))
     `min` length (metadatas (fruit_answer (toy_vector "apple") 5)))%nat /\
  exists docs,
    documents (fruit_answer (toy_vector "apple") 5) !! 0%nat = Some ("apple" :: docs).
Proof.
  destruct (retrieve_builds_one_entry_for_each_query _ _ _ _ _
              fruit_answers_retrieve fruit_retrieved) as [Hlen H].
  split; [exact Hlen|].
  destruct (H 0%nat apple eq_refl) as (docs & _ & _ & Hd & _).
  exists docs. exact Hd.
Defined.



(** The apple, stored alone, is read back whatever the query. *)
Lemma single_entry_round_trip_witness :
  (retrieve (toy_vector "zebra") 3
     (stocked Overwrite (AnEmbeddings toy_embeddings) None [apple])).1 = Ok [apple].
Proof.
  apply (single_entry_round_trip Overwrite (AnEmbeddings toy_embeddings) None apple
           (toy_vector "zebra") 3 eq_refl).
  exists (toy_vector "apple"). reflexivity.
Defined.

Lemma fruit_ready :
  collection_ready (fruit_store None) documents_handle (backend (fruit_store None)).
Proof. vm_compute. reflexivity. Qed.

Lemma fruit_nearest :
  (retrieve (toy_vector "apple") 1 (fruit_store None)).1 = Ok [apple].
Proof. vm_compute. reflexivity. Qed.

Lemma fruit_configuration :
  embedding_function (self (fruit_store None)) = AnEmbeddings toy_embeddings /\
  max_distance (self (fruit_store None)) = None.
Proof. unfold stocked. rewrite preserves_store. split; reflexivity. Qed.

(** The apple is found by its text as it is by its embedding. *)
Lemma find_similar_agrees_with_retrieve_witness :
  (find_similar "apple" (fruit_store None)).1 = Ok (Some "apple").
Proof.
  exact (find_similar_agrees_with_retrieve (fruit_store None) toy_embeddings "apple"
           (toy_vector "apple") apple documents_handle (backend (fruit_store None))
           fruit_ready (proj1 fruit_configuration) eq_refl
           (proj2 fruit_configuration) fruit_nearest).
Defined.

(** With the provider of the scenario, the [add] of [store] carries
    embeddings and the query of [find_similar] is by embedding. *)
Lemma provider_leaves_no_embedding_to_the_backend_witness :
  Forall (fun c => match c with
                   | CollectionAdd _ _ embeddings _ _ => embeddings <> None
                   | _ => True
                   end)
    (new_calls (store [apple])
       (store_over (client Skip) (AnEmbeddings toy_embeddings) None l2)) /\
  Forall (fun c => match c with
                   | CollectionQuery _ _ query_texts _ => query_texts = None
                   | _ => True
                   end)
    (new_calls (find_similar "apple")
       (store_over (client Skip) (AnEmbeddings toy_embeddings) None l2)).
Proof.
  destruct (provider_leaves_no_embedding_to_the_backend
              (store_over (client Skip) (AnEmbeddings toy_embeddings) None l2)
              toy_embeddings eq_refl) as (Hs & _ & Hf).
  split.
  - eapply Forall_impl; [apply (Hs [apple])|]. intros [] H; simpl in *; tauto.
  - eapply Forall_impl; [apply (Hf "apple")|]. intros [] H; simpl in *; tauto.
Defined.

(** * Construction, identity by content, and the way from store to retrieve *)

(** ** Construction *)

(** C7, as the code has it: when chromadb is not installed, a program
    that constructs a store does not reach [__init__]: loading the
    module raises [NameError], when the class statement evaluates the
    annotation [chromadb.ClientAPI], and not the [ImportError] of the
    guard of [__init__]; that guard is dead, since every module that
    has been loaded has its flag set.  When chromadb is installed,
    construction raises nothing of its own and sets the five fields
    once the initialiser of the base class has returned. *)
Theorem construction_without_chromadb_raises_NameError :
  (forall W Collection super name cl ef md d (s : state W Collection),
     construct false super name cl ef md d s = (Raised NameError, s)) /\
  (forall installed flag, load_module installed = Ok flag -> flag = true) /\
  (forall W Collection super name cl ef md d (s s' : state W Collection),
     super s = (Ok tt, s') ->
     construct true super name cl ef md d s =
     (Ok tt,
      mkState (mkChromaDBStore name cl ef md {[ "hnsw:space" := distance_method_str d ]})
              (backend s') (calls s'))).
Proof.
  split; [|split].
  - reflexivity.
  - by intros [] flag [= <-].
  - intros W Collection super name cl ef md d s s' Hs.
    unfold construct. simpl. by apply __init___run.
Qed.

Section Identity.

Context {W Collection : Type}.
Abbreviation state := (state W Collection).

(** C3: once the collection is returned and the texts are embedded,
    [store] writes the batch in one [add] whose IDs are, entry by
    entry, the SHA-256 digests, in hexadecimal, of the UTF-8 bytes of
    the payloads, so that entries with the same payload have the same
    ID; the outcome and the backend state of [store] are those of that
    [add].  Storing the batch again issues the same [add], same IDs and
    same columns: on every backend for which a repeated [add] is an
    overwrite or a no-op (same outcome, state unchanged) and
    [get_or_create_collection] returns the collection that is there,
    the second [store] has the outcome of the first and leaves the
    backend as the first left it. *)
Theorem content_hash_identity (s : state) es c w embeddings :
  collection_ready s c w ->
  embeddings_for (self s) es = Ok embeddings ->
  let ids :=
    (fun e => Hashlib.hexdigest (Hashlib.sha256 (encode_utf8 (vector e)))) <$> es in
  let add :=
    collection_add (chroma_client (self s)) c ids embeddings (vector <$> es)
      (metadatas_of es) in
  (List.filter is_add (new_calls (store es) s) =
   [CollectionAdd c ids embeddings (vector <$> es) (metadatas_of es)] /\
   (store es s).1 = (add w).1 /\
   backend (store es s).2 = (add w).2) /\
  (forall i j e1 e2,
     es !! i = Some e1 -> es !! j = Some e2 -> vector e1 = vector e2 ->
     ids !! i = ids !! j) /\
  (get_or_create_collection (chroma_client (self s)) (index_name (self s))
     (_metadata (self s)) (native_function (embedding_function (self s)))
     (add w).2 = (Ok c, (add w).2) ->
   add (add w).2 = add w ->
   List.filter is_add (new_calls (store es) (store es s).2) =
   [CollectionAdd c ids embeddings (vector <$> es) (metadatas_of es)] /\
   (store es (store es s).2).1 = (store es s).1 /\
   backend (store es (store es s).2).2 = backend (store es s).2).
Proof.
  intros Hc Hemb ids add.
  assert (forall s' w',
    self s' = self s -> collection_ready s' c w' ->
    List.filter is_add (new_calls (store es) s') =
    [CollectionAdd c ids embeddings (vector <$> es) (metadatas_of es)] /\
    (store es s').1 = (add w').1 /\ backend (store es s').2 = (add w').2) as Hrun.
  { intros s' w' Hself Hc'. unfold new_calls.
    rewrite (store_run _ _ _ _ Hc'), Hself.
    unfold embeddings_for, documents_of in *.
    destruct (embedding_function (self s)) as [e|f]; simpl.
    - destruct (embed_text e _) as [x|]; [|done]. injection Hemb as <-.
      simpl. by rewrite drop_app_length.
    - injection Hemb as <-. by rewrite drop_app_length. }
  split; [by apply Hrun|]. split.
  - intros i j e1 e2 Hi Hj Heq. unfold ids.
    rewrite !list_lookup_fmap, Hi, Hj. simpl. by rewrite Heq.
  - intros Hagain Hsame.
    destruct (Hrun s w eq_refl Hc) as (_ & Hout & Hback).
    destruct (Hrun (store es s).2 (add w).2) as (Hcalls & Hout' & Hback').
    + apply preserves_store.
    + unfold collection_ready. rewrite preserves_store, Hback. exact Hagain.
    + rewrite Hcalls, Hout', Hback', Hout, Hback, Hsame. done.
Qed.

End Identity.

(** ** From store to retrieve, on the in-memory backend *)

Section StoreThenRetrieve.

Implicit Types (rows batch : list (string * row)).




Abbreviation mem_state := (state (gmap string collection) handle).





End StoreThenRetrieve.

(** ** Runs of the two *)

Abbreviation copies_embeddings :=
  (Some [toy_vector "same text"; toy_vector "same text"; toy_vector "apple"]).

Lemma copies_collection_again p :
  get_or_create_collection (client p) "documents" {[ "hnsw:space" := "l2" ]} None
    (mem_add p documents_handle (ids_of copies) copies_embeddings
       (vector <$> copies) (metadatas_of copies)
       {[ "documents" := mkCollection {[ "hnsw:space" := "l2" ]} [] ]}).2
  = (Ok documents_handle,
     (mem_add p documents_handle (ids_of copies) copies_embeddings
        (vector <$> copies) (metadatas_of copies)
        {[ "documents" := mkCollection {[ "hnsw:space" := "l2" ]} [] ]}).2).
Proof. destruct p; vm_compute; reflexivity. Qed.

(** Storing twice a batch in which two entries have the same payload,
    on a backend that skips and on one that overwrites. *)
Lemma content_hash_identity_witness :
  (backend (store copies (store copies
              (constructed Skip (AnEmbeddings toy_embeddings) None)).2).2
   = backend (store copies (constructed Skip (AnEmbeddings toy_embeddings) None)).2 /\
   (store copies (store copies
       (constructed Skip (AnEmbeddings toy_embeddings) None)).2).1
   = (store copies (constructed Skip (AnEmbeddings toy_embeddings) None)).1) /\
  (backend (store copies (store copies
              (constructed Overwrite (AnEmbeddings toy_embeddings) None)).2).2
   = backend (store copies (constructed Overwrite (AnEmbeddings toy_embeddings) None)).2 /\
   (store copies (store copies
       (constructed Overwrite (AnEmbeddings toy_embeddings) None)).2).1
   = (store copies (constructed Overwrite (AnEmbeddings toy_embeddings) None)).1).
Proof.
  split.
  - destruct (content_hash_identity
                (constructed Skip (AnEmbeddings toy_embeddings) None) copies
                documents_handle _ copies_embeddings
                (constructed_ready Skip (AnEmbeddings toy_embeddings) None) eq_refl)
      as (_ & _ & H).
    destruct (H (copies_collection_again Skip) (mem_add_twice _ _ _ _ _ _ _))
      as (_ & Hout & Hback).
    split; [exact Hback|exact Hout].
  - destruct (content_hash_identity
                (constructed Overwrite (AnEmbeddings toy_embeddings) None) copies
                documents_handle _ copies_embeddings
                (constructed_ready Overwrite (AnEmbeddings toy_embeddings) None) eq_refl)
      as (_ & _ & H).
    destruct (H (copies_collection_again Overwrite) (mem_add_twice _ _ _ _ _ _ _))
      as (_ & Hout & Hback).
    split; [exact Hback|exact Hout].
Defined.




